(** * LoopScan: the echo-correlation engine of [analyze_real_cmb.py] and
      the significance report of [analyze_discovery.py]

    A shallow embedding of three pieces of the repository:

    - [read_fits_simple] (the hand-rolled FITS reader),
    - [analyze_cmb_correlations] together with the ranking done in [main],
    - [statistical_analysis] of [analyze_discovery.py].

    Conventions.
    - Pixel indices, patch sizes and sample counts are [nat]; header values
      parsed by Python's [int] are [Z].
    - A raised exception is an outcome of its own: [None] where a function
      can raise, and for the reader, whose header loop need not end, a
      three-valued [outcome] under a bound on the number of reads.
    - A Python [float] is a [pyfloat]: NaN, a signed infinity, or a finite
      value carried by its exact rational value.  Comparisons, [abs],
      [isnan] and [isfinite] follow IEEE-754.  In the records of the engine
      the one arithmetic expression ([360.0 * separation / len(valid_data)])
      is carried by its exact value; [Binary64] has the rounded arithmetic
      and the value the program stores for it ([angle64]).
    - [numpy] and [scipy] are outside the repository: the generator behind
      [np.random.seed]/[np.random.choice], [np.corrcoef] and
      [scipy.stats.ttest_1samp] are taken through interfaces.  [Binary64]
      gives the instance of [np.corrcoef] under binary64 arithmetic. *)

From Stdlib Require Import Strings.String Strings.Ascii Strings.Byte.
From Stdlib Require Import List Arith ZArith QArith Qabs Lia Bool.
From Stdlib Require Import Sorting.Sorted Sorting.Permutation.
Import ListNotations.

Set Implicit Arguments.

Close Scope Q_scope.
Open Scope nat_scope.

(* ===================================================================== *)
(** ** Python floats *)
(* ===================================================================== *)

Module PyFloat.

Inductive pyfloat : Type :=
| FNaN
| FInf (neg : bool)
| FFin (q : Q).

(** [np.isnan] / [math.isnan]. *)
Definition isnan (x : pyfloat) : bool :=
  match x with FNaN => true | _ => false end.

(** [np.isfinite]. *)
Definition isfinite (x : pyfloat) : bool :=
  match x with FFin _ => true | _ => false end.

(** Python's [abs] on a float. *)
Definition fabs (x : pyfloat) : pyfloat :=
  match x with
  | FNaN => FNaN
  | FInf _ => FInf false
  | FFin q => FFin (Qabs q)
  end.

(** [x <= y]; every comparison with NaN is [False]. *)
Definition fleb (x y : pyfloat) : bool :=
  match x, y with
  | FNaN, _ | _, FNaN => false
  | FInf true, _ => true
  | _, FInf false => true
  | FInf false, _ => false
  | _, FInf true => false
  | FFin a, FFin b => Qle_bool a b
  end.

(** [x < y]. *)
Definition fltb (x y : pyfloat) : bool :=
  match x, y with
  | FNaN, _ | _, FNaN => false
  | FInf true, FInf true => false
  | FInf true, _ => true
  | FInf false, _ => false
  | FFin _, FInf s => negb s
  | FFin a, FFin b => negb (Qle_bool b a)
  end.

(** [x >= y] is [y <= x]. *)
Definition fgeb (x y : pyfloat) : bool := fleb y x.

(** A Python [int] used where a float is expected. *)
Definition of_int (z : Z) : pyfloat := FFin (inject_Z z).

Lemma Qle_bool_false_lt (a b : Q) : Qle_bool a b = false -> (b < a)%Q.
Proof.
  intros H. apply Qnot_le_lt. intros Hle.
  apply Qle_bool_iff in Hle. congruence.
Qed.

Lemma fltb_fleb (x y : pyfloat) : fltb x y = true -> fleb x y = true.
Proof.
  destruct x as [|[]|a], y as [|[]|b]; simpl; try congruence.
  intros H. apply negb_true_iff in H. apply Qle_bool_false_lt in H.
  apply Qle_bool_iff. now apply Qlt_le_weak.
Qed.

Lemma fleb_trans (x y z : pyfloat) :
  fleb x y = true -> fleb y z = true -> fleb x z = true.
Proof.
  destruct x as [|[]|a], y as [|[]|b], z as [|[]|c]; simpl; try congruence.
  intros H1 H2. apply Qle_bool_iff in H1, H2. apply Qle_bool_iff.
  eapply Qle_trans; eassumption.
Qed.

(** Raising a threshold: [t1 < t2 <= x] gives [t1 <= x]. *)
Lemma fltb_fleb_trans (t1 t2 x : pyfloat) :
  fltb t1 t2 = true -> fleb t2 x = true -> fleb t1 x = true.
Proof. intros H1 H2. eapply fleb_trans; [apply fltb_fleb|]; eassumption. Qed.

(** Away from NaN the order is total. *)
Lemma fltb_false_fleb (x y : pyfloat) :
  isnan x = false -> isnan y = false -> fltb x y = false -> fleb y x = true.
Proof.
  destruct x as [|[]|a], y as [|[]|b]; simpl; try congruence.
  intros _ _ H. apply negb_false_iff in H. exact H.
Qed.

Lemma fabs_isnan (x : pyfloat) : isnan (fabs x) = isnan x.
Proof. now destruct x. Qed.

End PyFloat.
Export PyFloat.

(* ===================================================================== *)
(** ** The numpy interface *)
(* ===================================================================== *)

(** IEEE equality [x == y]. *)
Definition feqb (x y : pyfloat) : bool := fleb x y && fleb y x.

(** A patch whose entries are all equal (zero variance); the empty and the
    one-element patch are constant. *)
Definition constant_patch (p : list pyfloat) : bool :=
  match p with
  | [] => true
  | x :: r => forallb (feqb x) r
  end.

Lemma short_patch_constant (p : list pyfloat) :
  length p <= 1 -> constant_patch p = true.
Proof.
  destruct p as [|x [|y r]]; simpl; intros H; try reflexivity. lia.
Qed.

(** What the engine needs from numpy.

    - [random_seed s] is the generator state left by [np.random.seed(s)]: it
      depends on [s] alone, whatever the global state was before.
    - [random_choice st a k] is [np.random.choice(a, k, replace=False)] run
      from state [st]: [k <= a] distinct draws from [range(a)], and the
      state it leaves.
    - [corrcoef p q] is [np.corrcoef(p, q)[0, 1]]; [None] stands for a raised
      exception.  With at most one sample per patch the covariance is
      normalised by [1 / 0.0] and every entry of the result is NaN.  Nothing
      is assumed about a longer patch, constant or not: the deviations from
      a rounded mean need not vanish, and numpy can return a number for it. *)
Class Numpy : Type := {
  rng_state : Type;
  random_seed : Z -> rng_state;
  random_choice : rng_state -> nat -> nat -> list nat * rng_state;
  random_choice_spec :
    forall st a k, k <= a ->
      NoDup (fst (random_choice st a k)) /\
      length (fst (random_choice st a k)) = k /\
      Forall (fun i => i < a) (fst (random_choice st a k));
  corrcoef : list pyfloat -> list pyfloat -> option pyfloat;
  corrcoef_short :
    forall p q c,
      length p <= 1 \/ length q <= 1 ->
      corrcoef p q = Some c -> isnan c = true
}.

(* ===================================================================== *)
(** ** [analyze_cmb_correlations] and the ranking of [main] *)
(* ===================================================================== *)

Module Analysis.

(** One entry of [matches] (a Python dict with these six keys). *)
Record Match : Type := {
  location1 : nat;
  location2 : nat;
  correlation : pyfloat;
  separation_pixels : nat;
  separation_degrees : pyfloat;
  patch_size : nat
}.

(** [l[a:b]] for [0 <= a <= b] (numpy and list slicing clip at the end). *)
Definition slice {A} (l : list A) (a b : nat) : list A :=
  firstn (b - a) (skipn a l).

(** [test_separations]: [len // 4], [len // 2], [3 * len // 4]. *)
Definition test_separations (n : nat) : list nat :=
  [n / 4; n / 2; 3 * n / 4].

(** Lines 131-135:
    [start2 = (start1 + separation) % len(valid_data)], then
    [if start2 + patch_size > len(valid_data): start2 = len(valid_data) - patch_size]. *)
Definition second_start (n psize start1 separation : nat) : nat :=
  let start2 := (start1 + separation) mod n in
  if n <? start2 + psize then n - psize else start2.

(** [360.0 * separation / len(valid_data)]; [None] is the
    [ZeroDivisionError] of a division by [0]. *)
Definition angular_sep (separation n : nat) : option pyfloat :=
  if n =? 0 then None
  else Some (FFin (inject_Z (360 * Z.of_nat separation) / inject_Z (Z.of_nat n))%Q).

Section Engine.

Context {np : Numpy}.

(** Body of the inner loop (lines 131-156) for one [start1] and one
    [separation]: the list of records it appends (none or one).  An
    exception inside the [try] block is swallowed by [except: continue]. *)
Definition pair_match (valid_data : list pyfloat) (psize : nat)
    (min_correlation : pyfloat) (start1 separation : nat) : list Match :=
  let n := length valid_data in
  let patch1 := slice valid_data start1 (start1 + psize) in
  let start2 := second_start n psize start1 separation in
  let patch2 := slice valid_data start2 (start2 + psize) in
  match corrcoef patch1 patch2 with
  | None => []
  | Some c =>
      if negb (isnan c) && fgeb (fabs c) min_correlation then
        match angular_sep separation n with
        | None => []
        | Some angular => [ {| location1 := start1;
                               location2 := start2;
                               correlation := c;
                               separation_pixels := separation;
                               separation_degrees := angular;
                               patch_size := psize |} ]
        end
      else []
  end.

(** Lines 108-110: [np.random.seed(42)], [max_start = len - patch_size],
    [np.random.choice(max_start, min(n_samples, max_start), replace=False)];
    the draws and the generator state they leave. *)
Definition sample_starts (n psize n_samples : nat) : list nat * rng_state :=
  let st := random_seed 42 in
  let max_start := n - psize in
  random_choice st max_start (Nat.min n_samples max_start).

(** [analyze_cmb_correlations(cmb_data, patch_size, n_samples, min_correlation)]
    run with global generator state [st]: the [matches] list and the
    generator state on return.  [None] is the [ValueError] of
    [np.min(valid_data)] in the statistics lines (104-105) when no finite
    sample is left, which passes the size guard only for a patch size of
    zero. *)
Definition analyze_cmb_correlations (st : rng_state) (cmb_data : list pyfloat)
    (psize n_samples : nat) (min_correlation : pyfloat)
  : option (list Match * rng_state) :=
  let valid_data := filter isfinite cmb_data in
  let n := length valid_data in
  if n <? psize * 2 then Some ([], st)
  else if n =? 0 then None
  else
    let '(starts, st') := sample_starts n psize n_samples in
    Some (flat_map (fun start1 =>
            flat_map (pair_match valid_data psize min_correlation start1)
                     (test_separations n)) starts,
          st').

(** The match list of a run, when it returns. *)
Definition matches_of (run : option (list Match * rng_state)) : option (list Match) :=
  option_map fst run.

End Engine.

(** [matches.sort(key=lambda x: abs(x['correlation']), reverse=True)]:
    a stable sort by descending key.  Keys are never NaN here, so the order
    is total and every stable sort returns this list. *)
Fixpoint insert_desc (x : Match) (l : list Match) : list Match :=
  match l with
  | [] => [x]
  | y :: l' =>
      if fltb (fabs (correlation x)) (fabs (correlation y))
      then y :: insert_desc x l'
      else x :: y :: l'
  end.

Definition sort_matches (l : list Match) : list Match :=
  fold_right insert_desc [] l.

End Analysis.

(* ===================================================================== *)
(** ** A small instance of the numpy interface *)
(* ===================================================================== *)

(** The interface is inhabited: a generator that draws [0, 1, ..., k-1] and
    counts its calls, and a coarse correlation that raises on unequal
    lengths, is NaN on a constant or non-finite argument and otherwise
    returns the sign of the covariance.  It serves the concrete runs
    below; no general statement depends on it. *)
Module Toy.

Definition toy_choice (st a k : nat) : list nat * nat :=
  (seq 0 (Nat.min k a), S st).

Definition qval (x : pyfloat) : Q :=
  match x with FFin q => q | _ => 0%Q end.

Definition qsum (l : list Q) : Q := fold_right Qplus 0%Q l.

(** [n * sum(p*q) - sum(p) * sum(q)], a positive multiple of the covariance. *)
Definition cov_numerator (p q : list pyfloat) : Q :=
  let a := map qval p in
  let b := map qval q in
  (inject_Z (Z.of_nat (length p)) * qsum (map (fun xy => fst xy * snd xy) (combine a b))
   - qsum a * qsum b)%Q.

Definition toy_corrcoef (p q : list pyfloat) : option pyfloat :=
  if negb (length p =? length q) then None
  else if constant_patch p || constant_patch q then Some FNaN
  else if negb (forallb isfinite p && forallb isfinite q) then Some FNaN
  else match (cov_numerator p q ?= 0)%Q with
       | Gt => Some (FFin 1)
       | Lt => Some (FFin (-1))
       | Eq => Some (FFin 0)
       end.

Lemma toy_choice_spec (st a k : nat) :
  k <= a ->
  NoDup (fst (toy_choice st a k)) /\
  length (fst (toy_choice st a k)) = k /\
  Forall (fun i => i < a) (fst (toy_choice st a k)).
Proof.
  intros Hk. unfold toy_choice; simpl fst.
  rewrite Nat.min_l by exact Hk.
  repeat split.
  - apply seq_NoDup.
  - apply length_seq.
  - apply Forall_forall. intros i Hi. apply in_seq in Hi. lia.
Qed.

Lemma toy_corrcoef_short (p q : list pyfloat) (c : pyfloat) :
  length p <= 1 \/ length q <= 1 ->
  toy_corrcoef p q = Some c -> isnan c = true.
Proof.
  intros Hc. unfold toy_corrcoef.
  destruct (negb (length p =? length q)); [discriminate|].
  replace (constant_patch p || constant_patch q) with true.
  - intros [= <-]. reflexivity.
  - symmetry. apply orb_true_iff.
    destruct Hc as [Hc|Hc]; [left|right]; now apply short_patch_constant.
Qed.

#[export] Instance toy_numpy : Numpy := {|
  rng_state := nat;
  random_seed := fun s => Z.to_nat s;
  random_choice := toy_choice;
  random_choice_spec := toy_choice_spec;
  corrcoef := toy_corrcoef;
  corrcoef_short := toy_corrcoef_short
|}.

End Toy.

(* ===================================================================== *)
(** ** Binary64 arithmetic and numpy's correlation coefficient *)
(* ===================================================================== *)

(** IEEE-754 binary64 arithmetic on [pyfloat]: every operation returns the
    representable value nearest to the exact result (ties to even), with
    gradual underflow, overflow to infinity and the usual rules for NaN and
    the infinities.  The sign of a zero is not represented; a zero divisor
    counts as [+0.0], which is what the divisors below are (counts and
    square roots).

    On top of it, [np.corrcoef] for two one-dimensional arrays, step by
    step as [numpy.lib.function_base] computes it.  Sums are accumulated
    from the left: that is numpy's order for a mean of fewer than eight
    terms; the order inside [dot] is left to the BLAS in use and plays no
    part where the products are equal, as in the run on a constant array
    evaluated below.  It is an instance of the interface, used to evaluate
    runs on short patches. *)
Module Binary64.

(** *** Rounding *)

(** The integer nearest to [n / d], for [0 <= n] and [0 < d]; a tie goes to
    the even neighbour. *)
Definition nearest_even (n d : Z) : Z :=
  let q := (n / d)%Z in
  match (2 * (n mod d) ?= d)%Z with
  | Lt => q
  | Gt => (q + 1)%Z
  | Eq => if Z.even q then q else (q + 1)%Z
  end.

(** [m * 2^e] for an exponent of either sign, in lowest terms. *)
Definition scaled (m e : Z) : Q :=
  if (0 <=? e)%Z then inject_Z (m * 2 ^ e)
  else Qred (Qmake m (Z.to_pos (2 ^ (- e)))).

(** [floor (log2 (n / d))]. *)
Definition ilog2 (n d : positive) : Z :=
  let k := (Z.log2 (Zpos n) - Z.log2 (Zpos d))%Z in
  let reached :=
    if (0 <=? k)%Z then (Zpos d * 2 ^ k <=? Zpos n)%Z
    else (Zpos d <=? Zpos n * 2 ^ (- k))%Z in
  if reached then k else (k - 1)%Z.

(** [n / d] measured in units of [2^e]. *)
Definition in_units (n d : positive) (e : Z) : Z :=
  if (0 <=? e)%Z then nearest_even (Zpos n) (Zpos d * 2 ^ e)
  else nearest_even (Zpos n * 2 ^ (- e)) (Zpos d).

(** The binary64 value nearest to [n / d]: 53 significant bits, the unit
    never below [2^-1074] (subnormal range), infinity from [2^1024] on. *)
Definition round_pos (n d : positive) : pyfloat :=
  let e := Z.max (ilog2 n d - 52) (-1074) in
  let m := in_units n d e in
  if (971 <? e)%Z || ((e =? 971)%Z && (2 ^ 53 <=? m)%Z) then FInf false
  else FFin (scaled m e).

Definition fneg (x : pyfloat) : pyfloat :=
  match x with
  | FNaN => FNaN
  | FInf s => FInf (negb s)
  | FFin q => FFin (- q)
  end.

(** The binary64 value nearest to a rational. *)
Definition round64 (q : Q) : pyfloat :=
  match Qnum q with
  | Z0 => FFin 0
  | Zpos n => round_pos n (Qden q)
  | Zneg n => fneg (round_pos n (Qden q))
  end.

(** *** Arithmetic *)

Definition is_zero (q : Q) : bool := (Qnum q =? 0)%Z.
Definition is_neg (q : Q) : bool := (Qnum q <? 0)%Z.

Definition fadd (x y : pyfloat) : pyfloat :=
  match x, y with
  | FNaN, _ | _, FNaN => FNaN
  | FInf a, FInf b => if Bool.eqb a b then FInf a else FNaN
  | FInf a, FFin _ => FInf a
  | FFin _, FInf b => FInf b
  | FFin a, FFin b => round64 (a + b)
  end.

Definition fsub (x y : pyfloat) : pyfloat := fadd x (fneg y).

Definition fmul (x y : pyfloat) : pyfloat :=
  match x, y with
  | FNaN, _ | _, FNaN => FNaN
  | FInf a, FInf b => FInf (xorb a b)
  | FInf a, FFin q | FFin q, FInf a =>
      if is_zero q then FNaN else FInf (xorb a (is_neg q))
  | FFin a, FFin b => round64 (a * b)
  end.

Definition fdiv (x y : pyfloat) : pyfloat :=
  match x, y with
  | FNaN, _ | _, FNaN => FNaN
  | FInf _, FInf _ => FNaN
  | FInf a, FFin q => FInf (xorb a (is_neg q))
  | FFin _, FInf _ => FFin 0
  | FFin a, FFin b =>
      if is_zero b then (if is_zero a then FNaN else FInf (is_neg a))
      else round64 (a / b)
  end.

(** The binary64 value nearest to the square root of [n / d]: the root of
    [n / d / 4^e], which lies in [[2^52, 2^53)], is rounded by comparing with
    the square of the midpoint [s + 1/2]. *)
Definition sqrt_pos (n d : positive) : pyfloat :=
  let e := ((ilog2 n d - 104) / 2)%Z in
  let num := if (0 <=? e)%Z then Zpos n else (Zpos n * 4 ^ (- e))%Z in
  let den := if (0 <=? e)%Z then (Zpos d * 4 ^ e)%Z else Zpos d in
  let s := Z.sqrt (num / den) in
  let m := match (4 * num ?= (2 * s + 1) * (2 * s + 1) * den)%Z with
           | Lt => s
           | Gt => (s + 1)%Z
           | Eq => if Z.even s then s else (s + 1)%Z
           end in
  FFin (scaled m e).

Definition fsqrt (x : pyfloat) : pyfloat :=
  match x with
  | FNaN => FNaN
  | FInf false => FInf false
  | FInf true => FNaN
  | FFin q =>
      match Qnum q with
      | Z0 => FFin 0
      | Zpos n => sqrt_pos n (Qden q)
      | Zneg _ => FNaN
      end
  end.

(** [np.clip(x, -1, 1)]; NaN stays NaN. *)
Definition fclip (x : pyfloat) : pyfloat :=
  if fltb x (FFin (-1)) then FFin (-1)
  else if fltb (FFin 1) x then FFin 1
  else x.

(** A Python [int] converted to [float]. *)
Definition of_nat (n : nat) : pyfloat := round64 (inject_Z (Z.of_nat n)).

(** *** The stored angle *)

(** [360.0 * separation / len(valid_data)] as the program evaluates it, for
    a non-empty array. *)
Definition angle64 (separation n : nat) : pyfloat :=
  fdiv (fmul (FFin 360) (of_nat separation)) (of_nat n).

(** *** Rounding between integers *)

Lemma nearest_even_bounds (n d : Z) :
  (0 <= n)%Z -> (0 < d)%Z ->
  (forall lo, lo * d <= n -> lo <= nearest_even n d)%Z /\
  (forall hi, n <= hi * d -> nearest_even n d <= hi)%Z.
Proof.
  intros Hn Hd. unfold nearest_even.
  pose proof (Z.div_mod n d ltac:(lia)) as E.
  pose proof (Z.mod_pos_bound n d Hd) as B.
  set (q := (n / d)%Z) in *. set (r := (n mod d)%Z) in *.
  split.
  - intros lo Hlo. assert (lo <= q)%Z by nia.
    destruct (2 * r ?= d)%Z; [destruct (Z.even q)|..]; lia.
  - intros hi Hhi.
    destruct (2 * r ?= d)%Z eqn:C.
    + apply Z.compare_eq in C. assert (q < hi)%Z by nia.
      destruct (Z.even q); lia.
    + assert (q <= hi)%Z by nia. lia.
    + apply Z.compare_gt_iff in C. assert (q < hi)%Z by nia. lia.
Qed.

Lemma ilog2_le (n d : positive) (b : Z) :
  (0 <= b)%Z -> (Zpos n < 2 ^ (b + 1) * Zpos d)%Z -> (ilog2 n d <= b)%Z.
Proof.
  intros Hb Hlt. unfold ilog2.
  pose proof (Z.log2_spec (Zpos n) ltac:(lia)) as [Hn _].
  pose proof (Z.log2_spec (Zpos d) ltac:(lia)) as [_ Hd].
  pose proof (Z.log2_nonneg (Zpos n)) as Hn0.
  pose proof (Z.log2_nonneg (Zpos d)) as Hd0.
  set (a := Z.log2 (Zpos n)) in *. set (c := Z.log2 (Zpos d)) in *.
  assert (Hk : (a - c <= b + 1)%Z).
  { assert (H : (2 ^ a < 2 ^ (b + 1) * 2 ^ Z.succ c)%Z).
    { eapply Z.le_lt_trans; [exact Hn|]. eapply Z.lt_le_trans; [exact Hlt|].
      apply Z.mul_le_mono_nonneg_l; [apply Z.pow_nonneg|]; lia. }
    rewrite <- Z.pow_add_r in H by lia.
    apply Z.pow_lt_mono_r_iff in H; lia. }
  destruct (0 <=? a - c)%Z eqn:E0.
  - apply Z.leb_le in E0.
    destruct (Zpos d * 2 ^ (a - c) <=? Zpos n)%Z eqn:E1; [|lia].
    apply Z.leb_le in E1.
    assert (H : (2 ^ (a - c) < 2 ^ (b + 1))%Z) by nia.
    apply Z.pow_lt_mono_r_iff in H; lia.
  - apply Z.leb_gt in E0.
    destruct (Zpos d <=? Zpos n * 2 ^ (- (a - c)))%Z; lia.
Qed.

Lemma round_pos_between (n d : positive) (lo hi : Z) :
  (Zpos n < 2 ^ 53 * Zpos d)%Z ->
  (lo * Zpos d <= Zpos n)%Z -> (Zpos n <= hi * Zpos d)%Z ->
  exists b, round_pos n d = FFin b /\ (inject_Z lo <= b)%Q /\ (b <= inject_Z hi)%Q.
Proof.
  intros Hlt Hlo Hhi. unfold round_pos.
  pose proof (@ilog2_le n d 52 ltac:(lia) Hlt) as Hl.
  set (e := Z.max (ilog2 n d - 52) (-1074)) in *.
  assert (He : (e <= 0)%Z) by (subst e; lia).
  replace (971 <? e)%Z with false by (symmetry; apply Z.ltb_ge; lia).
  replace (e =? 971)%Z with false by (symmetry; apply Z.eqb_neq; lia).
  cbn [orb andb]. eexists. split; [reflexivity|].
  unfold in_units, scaled.
  destruct (0 <=? e)%Z eqn:E0.
  - apply Z.leb_le in E0. assert (e = 0)%Z by lia. subst e.
    replace (Z.max (ilog2 n d - 52) (-1074)) with 0%Z by lia.
    change (2 ^ 0)%Z with 1%Z. rewrite !Z.mul_1_r.
    destruct (@nearest_even_bounds (Zpos n) (Zpos d) ltac:(lia) ltac:(lia)) as [L U].
    split; rewrite <- Zle_Qle; [apply L | apply U]; assumption.
  - set (P := (2 ^ (- e))%Z).
    assert (HP : (0 < P)%Z) by (apply Z.pow_pos_nonneg; lia).
    destruct (@nearest_even_bounds (Zpos n * P) (Zpos d) ltac:(lia) ltac:(lia)) as [L U].
    set (m := nearest_even (Zpos n * P) (Zpos d)) in *.
    specialize (L (lo * P)%Z ltac:(nia)). specialize (U (hi * P)%Z ltac:(nia)).
    split.
    + rewrite Qred_correct. unfold Qle, inject_Z; simpl.
      rewrite Z2Pos.id by exact HP. lia.
    + rewrite Qred_correct. unfold Qle, inject_Z; simpl.
      rewrite Z2Pos.id by exact HP. lia.
Qed.

(** Rounding does not cross an integer: between two integers of magnitude
    below [2^53] the rounded value stays between them. *)
Lemma round64_between (q : Q) (lo hi : Z) :
  (- 2 ^ 53 < lo)%Z -> (hi < 2 ^ 53)%Z ->
  (inject_Z lo <= q)%Q -> (q <= inject_Z hi)%Q ->
  exists b, round64 q = FFin b /\ (inject_Z lo <= b)%Q /\ (b <= inject_Z hi)%Q.
Proof.
  intros Hlo Hhi Hl Hh. destruct q as [n d].
  unfold Qle, inject_Z in Hl, Hh; simpl in Hl, Hh.
  unfold round64; simpl Qnum; simpl Qden.
  destruct n as [|n|n].
  - exists 0%Q. split; [reflexivity|].
    split; unfold Qle, inject_Z; simpl; lia.
  - apply round_pos_between; nia.
  - destruct (@round_pos_between n d (- hi) (- lo)) as (b & Hb & B1 & B2); try nia.
    rewrite Hb. exists (- b)%Q. split; [reflexivity|].
    rewrite inject_Z_opp in B1, B2.
    split.
    + apply Qopp_le_compat in B2. rewrite Qopp_opp in B2. exact B2.
    + apply Qopp_le_compat in B1. rewrite Qopp_opp in B1. exact B1.
Qed.

(** An integer of magnitude below [2^53] is a binary64 value. *)
Lemma round64_int (q : Q) (z : Z) :
  (- 2 ^ 53 < z < 2 ^ 53)%Z -> (q == inject_Z z)%Q ->
  exists b, round64 q = FFin b /\ (b == inject_Z z)%Q.
Proof.
  intros Hz Hq.
  destruct (@round64_between q z z) as (b & Hb & B1 & B2); try lia.
  - rewrite Hq. apply Qle_refl.
  - rewrite Hq. apply Qle_refl.
  - exists b. split; [exact Hb|]. apply Qle_antisym; assumption.
Qed.

Lemma angle64_bounds (separation n : nat) :
  0 < n -> (Z.of_nat n < 2 ^ 44)%Z -> 4 * separation <= 3 * n ->
  exists b, angle64 separation n = FFin b /\ (0 <= b)%Q /\ (b <= 270)%Q.
Proof.
  intros Hn Hsmall Hsep. unfold angle64, of_nat.
  destruct (@round64_int (inject_Z (Z.of_nat separation)) (Z.of_nat separation))
    as (s & -> & Hs); [lia | reflexivity |].
  destruct (@round64_int (inject_Z (Z.of_nat n)) (Z.of_nat n))
    as (c & -> & Hc); [lia | reflexivity |].
  cbn [fmul].
  destruct (@round64_int (360 * s)%Q (360 * Z.of_nat separation)%Z)
    as (p & -> & Hp); [lia | rewrite Hs, inject_Z_mult; reflexivity |].
  cbn [fdiv].
  assert (Hcpos : (0 < c)%Q).
  { rewrite Hc. change 0%Q with (inject_Z 0). rewrite <- Zlt_Qlt. lia. }
  replace (is_zero c) with false.
  2:{ symmetry. unfold is_zero. apply Z.eqb_neq. intros H0.
      unfold Qlt in Hcpos; simpl in Hcpos. lia. }
  apply (@round64_between (p / c)%Q 0 270); try lia.
  - apply Qle_shift_div_l; [exact Hcpos|]. rewrite Hp.
    change (inject_Z 0) with 0%Q. rewrite Qmult_0_l.
    change 0%Q with (inject_Z 0). rewrite <- Zle_Qle. lia.
  - apply Qle_shift_div_r; [exact Hcpos|]. rewrite Hp, Hc.
    rewrite <- inject_Z_mult, <- Zle_Qle. lia.
Qed.

(** *** [np.corrcoef] on two one-dimensional arrays *)

(** [np.add.reduce]: the sum, accumulated from the left. *)
Definition np_sum (l : list pyfloat) : pyfloat := fold_left fadd l (FFin 0).

(** [a.mean()]: the sum divided by the count. *)
Definition np_mean (l : list pyfloat) : pyfloat :=
  fdiv (np_sum l) (of_nat (length l)).

(** [X -= avg[:, None]] for one row of [X]. *)
Definition deviations (l : list pyfloat) : list pyfloat :=
  let avg := np_mean l in map (fun x => fsub x avg) l.

(** One entry of [dot(X, X.T)]. *)
Definition dot (a b : list pyfloat) : pyfloat :=
  np_sum (map (fun xy => fmul (fst xy) (snd xy)) (combine a b)).

(** [np.true_divide(1, fact)] with [fact = n - 1], replaced by [0.0] when
    it is not positive. *)
Definition inv_fact (n : nat) : pyfloat :=
  if n <=? 1 then FInf false else fdiv (FFin 1) (of_nat (n - 1)).

(** [np.corrcoef(p, q)[0, 1]]: the covariance matrix
    [dot(X, X.T) * (1 / fact)] of the stacked rows, divided by the square
    roots of its diagonal, row-wise and then column-wise, and clipped to
    [-1, 1].  Rows of different lengths cannot be stacked. *)
Definition corrcoef64 (p q : list pyfloat) : option pyfloat :=
  if negb (length p =? length q) then None
  else
    let x := deviations p in
    let y := deviations q in
    let k := inv_fact (length p) in
    let c00 := fmul (dot x x) k in
    let c01 := fmul (dot x y) k in
    let c11 := fmul (dot y y) k in
    Some (fclip (fdiv (fdiv c01 (fsqrt c00)) (fsqrt c11))).

Lemma fmul_inf (v : pyfloat) :
  fmul v (FInf false) = FNaN \/ exists s, fmul v (FInf false) = FInf s.
Proof.
  destruct v as [|s|q]; simpl; [left; reflexivity | right; eauto |].
  destruct (is_zero q); [left; reflexivity | right; eauto].
Qed.

Lemma corrcoef64_short (p q : list pyfloat) (c : pyfloat) :
  length p <= 1 \/ length q <= 1 ->
  corrcoef64 p q = Some c -> isnan c = true.
Proof.
  intros Hlen. unfold corrcoef64.
  destruct (length p =? length q) eqn:E; [|discriminate].
  apply Nat.eqb_eq in E. cbn [negb].
  assert (Hk : inv_fact (length p) = FInf false).
  { unfold inv_fact. destruct (length p <=? 1) eqn:E1; [reflexivity|].
    apply Nat.leb_gt in E1. lia. }
  rewrite Hk. intros [= <-].
  destruct (fmul_inf (dot (deviations p) (deviations q))) as [->|[s1 ->]];
    [reflexivity|].
  destruct (fmul_inf (dot (deviations p) (deviations p))) as [->|[s0 ->]];
    [destruct s1; reflexivity|].
  destruct s1, s0; reflexivity.
Qed.

#[export] Instance numpy64 : Numpy := {|
  rng_state := nat;
  random_seed := fun s => Z.to_nat s;
  random_choice := Toy.toy_choice;
  random_choice_spec := Toy.toy_choice_spec;
  corrcoef := corrcoef64;
  corrcoef_short := corrcoef64_short
|}.

End Binary64.

(* ===================================================================== *)
(** ** Facts about the engine *)
(* ===================================================================== *)

Module AnalysisFacts.
Import Analysis.

(** *** Lists *)

Lemma filter_flat_map {A B} (p : B -> bool) (f : A -> list B) (l : list A) :
  filter p (flat_map f l) = flat_map (fun x => filter p (f x)) l.
Proof.
  induction l as [|x l IH]; simpl; [reflexivity|].
  rewrite filter_app, IH. reflexivity.
Qed.

(** Entries that contribute nothing can be left out of a [flat_map]. *)
Lemma flat_map_skip {A B} (keep : A -> bool) (f : A -> list B) (l : list A) :
  (forall x, keep x = false -> f x = []) ->
  flat_map f l = flat_map f (filter keep l).
Proof.
  intros Hskip. induction l as [|x l IH]; simpl; [reflexivity|].
  destruct (keep x) eqn:E; simpl.
  - now rewrite IH.
  - now rewrite (Hskip x E), IH.
Qed.

Lemma filter_incl_self {A} (p : A -> bool) (l : list A) : incl (filter p l) l.
Proof. intros x Hx. apply filter_In in Hx. tauto. Qed.

(** [a] distinct values below [a] are all of [0 .. a-1]. *)
Lemma full_draw_covers (l : list nat) (a : nat) :
  NoDup l -> length l = a -> Forall (fun i => i < a) l ->
  forall i, i < a -> In i l.
Proof.
  intros Hnd Hlen Hlt i Hi.
  assert (Hincl : incl l (seq 0 a)).
  { intros x Hx. rewrite Forall_forall in Hlt. apply in_seq.
    specialize (Hlt x Hx). lia. }
  assert (Hback : incl (seq 0 a) l).
  { apply NoDup_length_incl; [exact Hnd | rewrite length_seq; lia | exact Hincl]. }
  apply Hback, in_seq. lia.
Qed.

Lemma length_flat_map_const {A B} (f : A -> list B) (l : list A) (c : nat) :
  (forall x, In x l -> length (f x) = c) -> length (flat_map f l) = c * length l.
Proof.
  intros Hf. induction l as [|x l IH]; simpl; [lia|].
  rewrite length_app.
  rewrite IH by (intros y Hy; apply Hf; simpl; auto).
  rewrite (Hf x) by (simpl; auto). lia.
Qed.

(** *** Arrays of one repeated finite value *)

Lemma filter_isfinite_repeat (x : Q) (n : nat) :
  filter isfinite (repeat (FFin x) n) = repeat (FFin x) n.
Proof. induction n as [|n IH]; simpl; [reflexivity | now rewrite IH]. Qed.

Lemma skipn_repeat {A} (v : A) (a n : nat) : skipn a (repeat v n) = repeat v (n - a).
Proof.
  revert n. induction a as [|a IH]; intros n.
  - rewrite Nat.sub_0_r. reflexivity.
  - destruct n as [|n]; simpl; [reflexivity | apply IH].
Qed.

Lemma firstn_repeat {A} (v : A) (k n : nat) : k <= n -> firstn k (repeat v n) = repeat v k.
Proof.
  revert n. induction k as [|k IH]; intros n Hk; [reflexivity|].
  destruct n as [|n]; [lia|]. simpl. f_equal. apply IH. lia.
Qed.

Lemma slice_repeat {A} (v : A) (n a psize : nat) :
  a + psize <= n -> slice (repeat v n) a (a + psize) = repeat v psize.
Proof.
  intros H. unfold slice. rewrite skipn_repeat.
  replace (a + psize - a) with psize by lia. apply firstn_repeat. lia.
Qed.

Lemma constant_repeat (x : Q) (n : nat) : constant_patch (repeat (FFin x) n) = true.
Proof.
  destruct n as [|n]; [reflexivity|]. simpl.
  induction n as [|n IH]; [reflexivity|]. simpl. rewrite IH.
  unfold feqb. simpl.
  replace (Qle_bool x x) with true; [reflexivity|].
  symmetry. apply Qle_bool_iff. apply Qle_refl.
Qed.

(** *** The second start *)

Lemma mod_wrap_once (s n : nat) : n <= s -> s < 2 * n -> s mod n = s - n.
Proof.
  intros H1 H2.
  replace s with ((s - n) + 1 * n) at 1 by lia.
  rewrite Nat.Div0.mod_add. apply Nat.mod_small. lia.
Qed.

Lemma second_start_wrapped (n psize start1 separation : nat) :
  start1 + psize < n -> separation < n -> n <= start1 + separation ->
  second_start n psize start1 separation = start1 + separation - n.
Proof.
  intros Hs Hsep Hge. unfold second_start.
  rewrite mod_wrap_once by lia.
  destruct (n <? start1 + separation - n + psize) eqn:E; [|reflexivity].
  apply Nat.ltb_lt in E. lia.
Qed.

Lemma second_start_inside (n psize start1 separation : nat) :
  psize <= n -> start1 + separation < n ->
  second_start n psize start1 separation = Nat.min (start1 + separation) (n - psize).
Proof.
  intros HP Hlt. unfold second_start.
  rewrite Nat.mod_small by exact Hlt.
  destruct (n <? start1 + separation + psize) eqn:E.
  - apply Nat.ltb_lt in E. lia.
  - apply Nat.ltb_ge in E. lia.
Qed.

Lemma second_start_fits (n psize start1 separation : nat) :
  start1 + psize < n -> separation < n ->
  second_start n psize start1 separation + psize <= n.
Proof.
  intros Hs Hsep.
  destruct (Nat.le_gt_cases n (start1 + separation)) as [Hge|Hlt].
  - rewrite second_start_wrapped by assumption. lia.
  - rewrite second_start_inside by lia. lia.
Qed.

Lemma test_separations_lt (n separation : nat) :
  0 < n -> In separation (test_separations n) -> separation < n.
Proof.
  intros Hn [<-|[<-|[<-|[]]]].
  - apply Nat.Div0.div_lt_upper_bound; lia.
  - apply Nat.Div0.div_lt_upper_bound; lia.
  - apply Nat.Div0.div_lt_upper_bound; lia.
Qed.

(** *** Exact quotients of integers *)

Lemma Qdiv_inject_le (x y k : Z) :
  (0 < y)%Z -> (x <= k * y)%Z -> (inject_Z x / inject_Z y <= inject_Z k)%Q.
Proof.
  intros Hy H. destruct y as [|p|p]; try lia.
  unfold Qdiv, Qinv, Qmult, Qle, inject_Z; simpl. lia.
Qed.

Lemma Qdiv_inject_gt (x y k c : Z) :
  (0 < y)%Z -> (k * y - c < x)%Z ->
  (inject_Z k - inject_Z c / inject_Z y < inject_Z x / inject_Z y)%Q.
Proof.
  intros Hy H. destruct y as [|p|p]; try lia.
  unfold Qdiv, Qinv, Qmult, Qlt, Qminus, Qplus, Qopp, inject_Z; simpl. nia.
Qed.

Lemma Qdiv_inject_eq (x y k : Z) :
  (0 < y)%Z -> (x = k * y)%Z -> (inject_Z x / inject_Z y == inject_Z k)%Q.
Proof.
  intros Hy H. destruct y as [|p|p]; try lia.
  unfold Qdiv, Qinv, Qmult, Qeq, inject_Z; simpl. lia.
Qed.

Lemma angular_sep_pos (separation n : nat) :
  0 < n ->
  angular_sep separation n
  = Some (FFin (inject_Z (360 * Z.of_nat separation) / inject_Z (Z.of_nat n))%Q).
Proof.
  intros Hn. unfold angular_sep.
  destruct (n =? 0) eqn:E; [|reflexivity].
  apply Nat.eqb_eq in E. lia.
Qed.

Section Facts.

Context {np : Numpy}.

(** *** The sampler *)

Lemma sample_starts_spec (n psize n_samples : nat) :
  NoDup (fst (sample_starts n psize n_samples)) /\
  length (fst (sample_starts n psize n_samples)) = Nat.min n_samples (n - psize) /\
  Forall (fun i => i < n - psize) (fst (sample_starts n psize n_samples)).
Proof. unfold sample_starts. apply random_choice_spec. apply Nat.le_min_r. Qed.

Lemma sample_starts_lt (n psize n_samples start1 : nat) :
  In start1 (fst (sample_starts n psize n_samples)) -> start1 + psize < n.
Proof.
  intros Hin.
  destruct (sample_starts_spec n psize n_samples) as (_ & _ & Hall).
  rewrite Forall_forall in Hall. specialize (Hall _ Hin). lia.
Qed.

(** When at least [N - P] samples are asked for, every start below [N - P]
    is drawn, whatever the generator. *)
Lemma all_starts_drawn (n psize n_samples start1 : nat) :
  n - psize <= n_samples -> start1 < n - psize ->
  In start1 (fst (sample_starts n psize n_samples)).
Proof.
  intros Hk Hs.
  destruct (sample_starts_spec n psize n_samples) as (Hnd & Hlen & Hall).
  rewrite Nat.min_r in Hlen by exact Hk.
  exact (full_draw_covers Hnd Hlen Hall Hs).
Qed.

(** *** The loop body *)

Lemma pair_match_filter (valid_data : list pyfloat) (psize : nat)
    (t1 t2 : pyfloat) (start1 separation : nat) :
  fltb t1 t2 = true ->
  pair_match valid_data psize t2 start1 separation =
  filter (fun m => fgeb (fabs (correlation m)) t2)
         (pair_match valid_data psize t1 start1 separation).
Proof.
  intros Hlt. unfold pair_match.
  destruct (corrcoef _ _) as [c|]; [|reflexivity].
  destruct (isnan c); simpl; [reflexivity|].
  destruct (fgeb (fabs c) t2) eqn:E2.
  - assert (E1 : fgeb (fabs c) t1 = true).
    { unfold fgeb in *. eapply fltb_fleb_trans; eassumption. }
    rewrite E1. destruct (angular_sep _ _); simpl; [rewrite E2|]; reflexivity.
  - destruct (fgeb (fabs c) t1); [|reflexivity].
    destruct (angular_sep _ _); simpl; [rewrite E2|]; reflexivity.
Qed.

(** Patches of at most one sample give no record. *)
Lemma pair_match_short (valid_data : list pyfloat) (psize : nat)
    (t : pyfloat) (start1 separation : nat) :
  psize <= 1 ->
  pair_match valid_data psize t start1 separation = [].
Proof.
  intros Hp. unfold pair_match.
  destruct (corrcoef _ _) as [c|] eqn:E; [|reflexivity].
  assert (Hc : isnan c = true).
  { apply (corrcoef_short _ _ (c := c)) in E; [exact E|].
    left. unfold slice. rewrite length_firstn. lia. }
  rewrite Hc. reflexivity.
Qed.

Lemma pair_match_inv (valid_data : list pyfloat) (psize : nat)
    (t : pyfloat) (start1 separation : nat) (m : Match) :
  In m (pair_match valid_data psize t start1 separation) ->
  location1 m = start1 /\
  location2 m = second_start (length valid_data) psize start1 separation /\
  separation_pixels m = separation /\
  patch_size m = psize /\
  isnan (correlation m) = false /\
  fgeb (fabs (correlation m)) t = true /\
  corrcoef (slice valid_data start1 (start1 + psize))
           (slice valid_data (location2 m) (location2 m + psize))
    = Some (correlation m) /\
  angular_sep separation (length valid_data) = Some (separation_degrees m).
Proof.
  unfold pair_match.
  destruct (corrcoef _ _) as [c|] eqn:E; [|intros []].
  destruct (isnan c) eqn:En; simpl; [intros []|].
  destruct (fgeb (fabs c) t) eqn:Eg; [|intros []].
  destruct (angular_sep _ _) as [a|] eqn:Ea; [|intros []].
  intros [<-|[]]; simpl. repeat split; auto.
Qed.

(** On an array of [n] copies of one finite value both patches of a pair are
    [psize] copies of it: when numpy returns a number [c] that passes the
    guard for them, the body appends the record of the pair. *)
Lemma pair_match_constant (x : Q) (n psize : nat) (t c : pyfloat)
    (start1 separation : nat) :
  start1 + psize < n -> separation < n ->
  corrcoef (repeat (FFin x) psize) (repeat (FFin x) psize) = Some c ->
  isnan c = false -> fgeb (fabs c) t = true ->
  pair_match (repeat (FFin x) n) psize t start1 separation
  = [ {| location1 := start1;
         location2 := second_start n psize start1 separation;
         correlation := c;
         separation_pixels := separation;
         separation_degrees :=
           FFin (inject_Z (360 * Z.of_nat separation) / inject_Z (Z.of_nat n))%Q;
         patch_size := psize |} ].
Proof.
  intros Hs Hsep Hc Hn Hge. unfold pair_match.
  rewrite repeat_length.
  rewrite slice_repeat by lia.
  rewrite slice_repeat by (apply second_start_fits; assumption).
  rewrite Hc, Hn, Hge. cbn [negb andb].
  rewrite angular_sep_pos by lia. reflexivity.
Qed.

(** Every record comes from one sampled start and one tested separation. *)
Lemma analyze_In (st : rng_state) (cmb_data : list pyfloat)
    (psize n_samples : nat) (t : pyfloat) (ms : list Match) (m : Match) :
  matches_of (analyze_cmb_correlations st cmb_data psize n_samples t) = Some ms ->
  In m ms ->
  psize * 2 <= length (filter isfinite cmb_data) /\
  exists start1 separation,
    In start1 (fst (sample_starts (length (filter isfinite cmb_data)) psize n_samples)) /\
    In separation (test_separations (length (filter isfinite cmb_data))) /\
    In m (pair_match (filter isfinite cmb_data) psize t start1 separation).
Proof.
  unfold matches_of, analyze_cmb_correlations.
  destruct (_ <? _) eqn:Eg; [intros [= <-] []|].
  apply Nat.ltb_ge in Eg.
  destruct (_ =? 0); [discriminate|].
  destruct (sample_starts _ _ _) as [starts st'] eqn:Es. cbn [option_map fst].
  intros Heq Hin. apply (f_equal (fun o => match o with Some l => l | None => [] end)) in Heq.
  cbv beta iota in Heq. subst ms. split; [exact Eg|].
  apply in_flat_map in Hin. destruct Hin as (start1 & Hs & Hin).
  apply in_flat_map in Hin. destruct Hin as (separation & Hsep & Hin).
  exists start1, separation. auto.
Qed.

End Facts.

End AnalysisFacts.

(* ===================================================================== *)
(** ** Properties of the engine *)
(* ===================================================================== *)

Module Engine.
Import Analysis AnalysisFacts.

(** The finite values [1.0, 2.0, ..., n.0]. *)
Definition ramp (n : nat) : list pyfloat :=
  map (fun i => of_int (Z.of_nat i)) (seq 1 n).

(** A threshold such as [0.1]. *)
Definition tenth : pyfloat := FFin (1 # 10).

Section Claims.

Context {np : Numpy}.

(** C1 (as the code has it).  For a sampled [start1] and a tested
    separation, the second start is the pairing reduced modulo the array
    length: when [start1 + separation] reaches or exceeds [N] it is the
    wrapped index [start1 + separation - N]; it is clamped to [N - P] only
    when the pairing stays below [N] but the patch would run past the end.
    Either way the second patch lies inside the array. *)
Theorem second_start_wrap_then_clamp (n psize n_samples start1 separation : nat) :
  psize * 2 <= n ->
  In start1 (fst (sample_starts n psize n_samples)) ->
  In separation (test_separations n) ->
  (n <= start1 + separation ->
     second_start n psize start1 separation = start1 + separation - n) /\
  (start1 + separation < n ->
     second_start n psize start1 separation = Nat.min (start1 + separation) (n - psize)) /\
  second_start n psize start1 separation + psize <= n.
Proof.
  intros Hg Hs Hsep.
  apply sample_starts_lt in Hs.
  assert (Hlt : separation < n) by (apply test_separations_lt; [lia | exact Hsep]).
  assert (H1 : n <= start1 + separation ->
               second_start n psize start1 separation = start1 + separation - n).
  { intros Hge. apply second_start_wrapped; assumption. }
  assert (H2 : start1 + separation < n ->
               second_start n psize start1 separation
               = Nat.min (start1 + separation) (n - psize)).
  { intros Hin. apply second_start_inside; lia. }
  repeat split; try assumption.
  destruct (Nat.le_gt_cases n (start1 + separation)) as [Hge|Hin].
  - rewrite (H1 Hge). lia.
  - rewrite (H2 Hin). lia.
Qed.

(** C2 (what the sampler does).  Past the size guard the sampler draws
    [min(K, N - P)] distinct indices, all strictly below [N - P]: the start
    [N - P], which is a valid patch start, is never drawn. *)
Theorem sample_starts_exclude_last (n psize n_samples : nat) :
  psize * 2 <= n ->
  length (fst (sample_starts n psize n_samples)) = Nat.min n_samples (n - psize) /\
  NoDup (fst (sample_starts n psize n_samples)) /\
  (forall s, In s (fst (sample_starts n psize n_samples)) -> s < n - psize) /\
  ~ In (n - psize) (fst (sample_starts n psize n_samples)) /\
  (n - psize) + psize <= n.
Proof.
  intros Hg.
  destruct (sample_starts_spec n psize n_samples) as (Hnd & Hlen & Hall).
  rewrite Forall_forall in Hall.
  repeat split; auto.
  - intros Hin. specialize (Hall _ Hin). lia.
  - lia.
Qed.

(** C6.  The match list does not depend on the generator state the
    analysis starts from: [np.random.seed(42)] resets it.  Two runs on the
    same array, patch size, sample count and threshold, from any two
    generator states and in particular one after the other, return the same
    records in the same order, and so does the ranking of [main]. *)
Theorem analysis_deterministic (st1 st2 : rng_state) (cmb_data : list pyfloat)
    (psize n_samples : nat) (min_correlation : pyfloat) :
  matches_of (analyze_cmb_correlations st1 cmb_data psize n_samples min_correlation)
  = matches_of (analyze_cmb_correlations st2 cmb_data psize n_samples min_correlation) /\
  match analyze_cmb_correlations st1 cmb_data psize n_samples min_correlation with
  | Some (_, st') =>
      matches_of (analyze_cmb_correlations st' cmb_data psize n_samples min_correlation)
  | None => None
  end
  = matches_of (analyze_cmb_correlations st1 cmb_data psize n_samples min_correlation) /\
  option_map sort_matches
    (matches_of (analyze_cmb_correlations st1 cmb_data psize n_samples min_correlation))
  = option_map sort_matches
      (matches_of (analyze_cmb_correlations st2 cmb_data psize n_samples min_correlation)).
Proof.
  assert (Hany : forall s s',
    matches_of (analyze_cmb_correlations s cmb_data psize n_samples min_correlation)
    = matches_of (analyze_cmb_correlations s' cmb_data psize n_samples min_correlation)).
  { intros s s'. unfold matches_of, analyze_cmb_correlations.
    destruct (_ <? _); [reflexivity|].
    destruct (_ =? 0); [reflexivity|].
    destruct (sample_starts _ _ _) as [starts st']. reflexivity. }
  repeat split.
  - apply Hany.
  - destruct (analyze_cmb_correlations st1 cmb_data psize n_samples min_correlation)
      as [[ms st']|] eqn:E; [|reflexivity].
    rewrite (Hany st' st1), E. reflexivity.
  - f_equal. apply Hany.
Qed.

(** C7.  With everything else fixed, when the run at threshold [t1] returns
    its matches, the run at a threshold [t2 > t1] returns those of them that
    also reach [t2], in the same order: a subset, and never more of them. *)
Theorem threshold_monotone (st : rng_state) (cmb_data : list pyfloat)
    (psize n_samples : nat) (t1 t2 : pyfloat) (matches1 : list Match) :
  fltb t1 t2 = true ->
  matches_of (analyze_cmb_correlations st cmb_data psize n_samples t1) = Some matches1 ->
  exists matches2,
    matches_of (analyze_cmb_correlations st cmb_data psize n_samples t2) = Some matches2 /\
    matches2 = filter (fun m => fgeb (fabs (correlation m)) t2) matches1 /\
    incl matches2 matches1 /\
    length matches2 <= length matches1.
Proof.
  intros Hlt H1.
  assert (Heq :
    matches_of (analyze_cmb_correlations st cmb_data psize n_samples t2)
    = option_map (filter (fun m => fgeb (fabs (correlation m)) t2))
        (matches_of (analyze_cmb_correlations st cmb_data psize n_samples t1))).
  { unfold matches_of, analyze_cmb_correlations.
    destruct (_ <? _); [reflexivity|].
    destruct (_ =? 0); [reflexivity|].
    destruct (sample_starts _ _ _) as [starts st']. cbn [option_map fst]. f_equal.
    rewrite filter_flat_map. apply flat_map_ext. intros start1.
    rewrite filter_flat_map. apply flat_map_ext. intros separation.
    apply pair_match_filter. exact Hlt. }
  rewrite H1 in Heq. cbn [option_map] in Heq.
  eexists. split; [exact Heq|]. split; [reflexivity|]. split.
  - apply filter_incl_self.
  - apply filter_length_le.
Qed.

(** C8 (what the code does).  The loop body drops a pair only when
    [np.corrcoef] raises or returns NaN; it never looks at the variance of a
    patch.  So whenever numpy returns a number [c] for two patches made of
    [P] copies of one value, as it does for three samples of 0.1, where the
    rounded mean leaves deviations of one unit in the last place and the
    coefficient is 1.0, constant patches are reported: on an array of [N]
    copies of that value the run returns, every sampled start yields its
    three records, and each of them pairs two constant patches with
    correlation [c]. *)
Theorem constant_patches_reported (st : rng_state) (x : Q) (n psize n_samples : nat)
    (min_correlation c : pyfloat) :
  1 <= psize -> psize * 2 <= n ->
  corrcoef (repeat (FFin x) psize) (repeat (FFin x) psize) = Some c ->
  isnan c = false ->
  fgeb (fabs c) min_correlation = true ->
  exists matches,
    matches_of (analyze_cmb_correlations st (repeat (FFin x) n) psize n_samples
                  min_correlation) = Some matches /\
    length matches = 3 * Nat.min n_samples (n - psize) /\
    forall m, In m matches ->
      constant_patch (slice (filter isfinite (repeat (FFin x) n))
                            (location1 m) (location1 m + psize)) = true /\
      constant_patch (slice (filter isfinite (repeat (FFin x) n))
                            (location2 m) (location2 m + psize)) = true /\
      correlation m = c.
Proof.
  intros Hp Hg Hc Hn Hge.
  unfold matches_of, analyze_cmb_correlations.
  rewrite filter_isfinite_repeat, repeat_length.
  destruct (n <? psize * 2) eqn:Eg; [apply Nat.ltb_lt in Eg; lia|].
  destruct (n =? 0) eqn:E0; [apply Nat.eqb_eq in E0; lia|].
  pose proof (sample_starts_spec n psize n_samples) as (_ & Hlen & _).
  pose proof (fun s => @sample_starts_lt np n psize n_samples s) as Hlt.
  destruct (sample_starts n psize n_samples) as [starts st'].
  cbn [option_map fst] in *.
  assert (Hbody : forall start1 separation,
            In start1 starts -> In separation (test_separations n) ->
            pair_match (repeat (FFin x) n) psize min_correlation start1 separation
            = [ {| location1 := start1;
                   location2 := second_start n psize start1 separation;
                   correlation := c;
                   separation_pixels := separation;
                   separation_degrees :=
                     FFin (inject_Z (360 * Z.of_nat separation)
                           / inject_Z (Z.of_nat n))%Q;
                   patch_size := psize |} ]).
  { intros start1 separation Hs Hsep. apply pair_match_constant; try assumption.
    - apply Hlt. exact Hs.
    - apply test_separations_lt; [lia | exact Hsep]. }
  eexists. split; [reflexivity|]. split.
  - rewrite <- Hlen. apply length_flat_map_const. intros start1 Hs.
    unfold test_separations. cbn [flat_map].
    rewrite !Hbody by (try exact Hs; unfold test_separations; simpl; auto).
    reflexivity.
  - intros m Hin.
    apply in_flat_map in Hin. destruct Hin as (start1 & Hs & Hin).
    apply in_flat_map in Hin. destruct Hin as (separation & Hsep & Hin).
    rewrite (Hbody _ _ Hs Hsep) in Hin. destruct Hin as [<-|[]].
    cbn [location1 location2 correlation].
    assert (Hsl : separation < n) by (apply test_separations_lt; [lia | exact Hsep]).
    rewrite slice_repeat by (specialize (Hlt _ Hs); lia).
    rewrite slice_repeat by (apply second_start_fits; [apply Hlt; exact Hs | exact Hsl]).
    rewrite constant_repeat. auto.
Qed.

(** C10 (as the code has it).  The three offsets are the floors of [N/4],
    [N/2] and [3N/4].  Their angles [360 * offset / N] lie within [360/N]
    below 90, 180 and 270 degrees, and equal them when [N] is a multiple of
    four; for other lengths they fall short, by up to [360/N] degrees. *)
Theorem fractional_offsets (n : nat) :
  0 < n ->
  test_separations n = [n / 4; n / 2; 3 * n / 4] /\
  (4 * (n / 4) <= n < 4 * (n / 4) + 4) /\
  (2 * (n / 2) <= n < 2 * (n / 2) + 2) /\
  (4 * (3 * n / 4) <= 3 * n < 4 * (3 * n / 4) + 4) /\
  exists a1 a2 a3 : Q,
    map (fun s => angular_sep s n) (test_separations n)
    = [Some (FFin a1); Some (FFin a2); Some (FFin a3)] /\
    (90 - 360 / inject_Z (Z.of_nat n) < a1 /\ a1 <= 90)%Q /\
    (180 - 360 / inject_Z (Z.of_nat n) < a2 /\ a2 <= 180)%Q /\
    (270 - 360 / inject_Z (Z.of_nat n) < a3 /\ a3 <= 270)%Q /\
    (n mod 4 = 0 -> (a1 == 90 /\ a2 == 180 /\ a3 == 270)%Q).
Proof.
  intros Hn.
  pose proof (Nat.div_mod_eq n 4) as D4.
  pose proof (Nat.mod_upper_bound n 4 ltac:(lia)) as B4.
  pose proof (Nat.div_mod_eq n 2) as D2.
  pose proof (Nat.mod_upper_bound n 2 ltac:(lia)) as B2.
  pose proof (Nat.div_mod_eq (3 * n) 4) as D3.
  pose proof (Nat.mod_upper_bound (3 * n) 4 ltac:(lia)) as B3.
  split; [reflexivity|].
  split; [lia|]. split; [lia|]. split; [lia|].
  eexists _, _, _. split.
  { unfold test_separations. cbn [map].
    rewrite !angular_sep_pos by exact Hn. reflexivity. }
  assert (Hz : (0 < Z.of_nat n)%Z) by lia.
  change 90%Q with (inject_Z 90). change 180%Q with (inject_Z 180).
  change 270%Q with (inject_Z 270). change 360%Q with (inject_Z 360).
  repeat split.
  - apply Qdiv_inject_gt; [exact Hz | lia].
  - apply Qdiv_inject_le; [exact Hz | lia].
  - apply Qdiv_inject_gt; [exact Hz | lia].
  - apply Qdiv_inject_le; [exact Hz | lia].
  - apply Qdiv_inject_gt; [exact Hz | lia].
  - apply Qdiv_inject_le; [exact Hz | lia].
  - apply Qdiv_inject_eq; [exact Hz | lia].
  - apply Qdiv_inject_eq; [exact Hz | lia].
  - apply Qdiv_inject_eq; [exact Hz | ].
    assert (Hm : (3 * n) mod 4 = 0).
    { rewrite <- Nat.Div0.mul_mod_idemp_r, H, Nat.mul_0_r. reflexivity. }
    lia.
Qed.

End Claims.

(** *** Concrete runs *)

Ltac pick_member := repeat (first [left; reflexivity | right]).

Lemma second_start_wrap_then_clamp_witness :
  (8 <= 5 + 4 -> second_start 8 2 5 4 = 5 + 4 - 8) /\
  (5 + 4 < 8 -> second_start 8 2 5 4 = Nat.min (5 + 4) (8 - 2)) /\
  second_start 8 2 5 4 + 2 <= 8.
Proof.
  apply (@second_start_wrap_then_clamp Toy.toy_numpy 8 2 6 5 4).
  - simpl; lia.
  - vm_compute. pick_member.
  - vm_compute. pick_member.
Defined.

(** C1, as stated, fails.  Array length 8, patch size 2, six samples: every
    start [0..5] is drawn, whatever the generator.  For [start1 = 5] and the
    half-way separation [4] the pairing [9] exceeds [8]; the second start is
    [1 = 9 - 8], the wrapped index, not the clamp [8 - 2 = 6], and the run
    reports the pair [(5, 1)]. *)
Lemma second_start_wraps_counterexample :
  (forall np : Numpy, In 5 (fst (sample_starts (np := np) 8 2 6))) /\
  In 4 (test_separations 8) /\
  8 < 5 + 4 /\
  second_start 8 2 5 4 = (5 + 4) - 8 /\
  second_start 8 2 5 4 <> 8 - 2 /\
  exists matches,
    matches_of (analyze_cmb_correlations (np := Toy.toy_numpy) 0 (ramp 8) 2 6 tenth)
    = Some matches /\
    In {| location1 := 5; location2 := 1; correlation := FFin 1;
          separation_pixels := 4; separation_degrees := FFin (1440 # 8);
          patch_size := 2 |} matches.
Proof.
  split; [intros np; apply all_starts_drawn; simpl; lia|].
  split; [vm_compute; pick_member|].
  split; [lia|].
  split; [reflexivity|].
  split; [vm_compute; lia|].
  eexists. split; [vm_compute; reflexivity|]. pick_member.
Qed.

Lemma sample_starts_exclude_last_witness :
  length (fst (sample_starts (np := Toy.toy_numpy) 4 2 3)) = Nat.min 3 (4 - 2) /\
  NoDup (fst (sample_starts (np := Toy.toy_numpy) 4 2 3)) /\
  (forall s, In s (fst (sample_starts (np := Toy.toy_numpy) 4 2 3)) -> s < 4 - 2) /\
  ~ In (4 - 2) (fst (sample_starts (np := Toy.toy_numpy) 4 2 3)) /\
  (4 - 2) + 2 <= 4.
Proof.
  apply (@sample_starts_exclude_last Toy.toy_numpy 4 2 3). simpl; lia.
Defined.

(** Array length 4, patch size 2: the valid starts are 0, 1 and 2, yet a
    request for three samples returns two, and never the start 2. *)
Example sample_starts_4_2_3 :
  fst (sample_starts (np := Toy.toy_numpy) 4 2 3) = [0; 1].
Proof. reflexivity. Qed.

(** The run on [ramp 8] with patch size 2 and six samples. *)
Definition ramp_run (t : pyfloat) : option (list Match) :=
  matches_of (analyze_cmb_correlations (np := Toy.toy_numpy) 0 (ramp 8) 2 6 t).

Definition ramp_matches : list Match :=
  Eval vm_compute in match ramp_run tenth with Some ms => ms | None => [] end.

Lemma threshold_monotone_witness :
  exists matches2,
    ramp_run (FFin (1 # 2)) = Some matches2 /\
    matches2 = filter (fun m => fgeb (fabs (correlation m)) (FFin (1 # 2))) ramp_matches /\
    incl matches2 ramp_matches /\
    length matches2 <= length ramp_matches.
Proof.
  apply (@threshold_monotone Toy.toy_numpy 0 (ramp 8) 2 6 tenth (FFin (1 # 2))
           ramp_matches).
  - reflexivity.
  - vm_compute. reflexivity.
Defined.

(** The run behind it: eighteen records at threshold 0.1, the same at 0.5,
    none at 2. *)
Example threshold_run :
  length ramp_matches = 18 /\
  ramp_run (FFin (1 # 2)) = Some ramp_matches /\
  ramp_run (FFin 2) = Some [].
Proof. repeat split; vm_compute; reflexivity. Qed.

(** Eight samples of the float [0.1], patch size 3, five samples asked for,
    threshold [0.1]: the run under binary64 arithmetic. *)
Definition q_0_1 : Q := 3602879701896397 # 36028797018963968.

Definition constant_run : option (list Match) :=
  matches_of (analyze_cmb_correlations (np := Binary64.numpy64) 0
                (repeat (FFin q_0_1) 8) 3 5 (FFin q_0_1)).

Definition constant_matches : list Match :=
  Eval vm_compute in match constant_run with Some ms => ms | None => [] end.

Lemma constant_patches_reported_witness :
  exists matches,
    constant_run = Some matches /\
    length matches = 3 * Nat.min 5 (8 - 3) /\
    forall m, In m matches ->
      constant_patch (slice (filter isfinite (repeat (FFin q_0_1) 8))
                            (location1 m) (location1 m + 3)) = true /\
      constant_patch (slice (filter isfinite (repeat (FFin q_0_1) 8))
                            (location2 m) (location2 m + 3)) = true /\
      correlation m = FFin 1.
Proof.
  apply (@constant_patches_reported Binary64.numpy64 0 q_0_1 8 3 5
           (FFin q_0_1) (FFin 1)).
  - lia.
  - simpl; lia.
  - vm_compute. reflexivity.
  - reflexivity.
  - reflexivity.
Defined.

(** The float [0.1] is the binary64 value nearest to one tenth.  For three
    samples of it the mean is [0.10000000000000002], each deviation is
    [-2^-56], and the coefficient of the patch with itself is [1.0]; the
    run reports all fifteen pairs, each with correlation [1.0].  An exactly
    averaged constant patch, such as two samples of [1.0], gives NaN. *)
Example constant_run_records :
  Binary64.round64 (1 # 10) = FFin q_0_1 /\
  Binary64.np_mean (repeat (FFin q_0_1) 3)
  = FFin (7205759403792795 # 72057594037927936)%Q /\
  Binary64.deviations (repeat (FFin q_0_1) 3)
  = repeat (FFin (-1 # 72057594037927936)%Q) 3 /\
  Binary64.corrcoef64 (repeat (FFin q_0_1) 3) (repeat (FFin q_0_1) 3) = Some (FFin 1) /\
  constant_run = Some constant_matches /\
  length constant_matches = 15 /\
  map correlation constant_matches = repeat (FFin 1) 15 /\
  Binary64.corrcoef64 [FFin 1; FFin 1] [FFin 5; FFin 6] = Some FNaN.
Proof. repeat split; vm_compute; reflexivity. Qed.

(** With patch size zero and no finite sample the statistics lines raise. *)
Example empty_run_raises :
  analyze_cmb_correlations (np := Toy.toy_numpy) 0 [FNaN; FInf false] 0 5 tenth = None.
Proof. reflexivity. Qed.

Lemma fractional_offsets_witness :
  test_separations 8 = [2; 4; 6] /\
  exists a1 a2 a3 : Q,
    map (fun s => angular_sep s 8) (test_separations 8)
    = [Some (FFin a1); Some (FFin a2); Some (FFin a3)] /\
    (a1 == 90 /\ a2 == 180 /\ a3 == 270)%Q.
Proof.
  destruct (fractional_offsets (n := 8) ltac:(lia))
    as (_ & _ & _ & _ & a1 & a2 & a3 & Hmap & _ & _ & _ & Heq).
  split; [reflexivity|].
  exists a1, a2, a3. split; [exact Hmap | exact (Heq eq_refl)].
Defined.

(** C10, as stated, fails.  For [N = 5] the offsets are 1, 2 and 3 and the
    first angle is [360 * 1 / 5 = 72] degrees, eighteen degrees away from
    90. *)
Lemma angles_counterexample :
  test_separations 5 = [1; 2; 3] /\
  angular_sep 1 5 = Some (FFin (360 # 5)) /\
  (360 # 5 == 72)%Q /\
  ~ (Qabs ((360 # 5) - 90) <= 1)%Q.
Proof.
  split; [reflexivity|]. split; [reflexivity|]. split; [reflexivity|].
  intros H. vm_compute in H. apply H. reflexivity.
Qed.

End Engine.

(* ===================================================================== *)
(** ** The report written by [main] and [statistical_analysis] *)
(* ===================================================================== *)

Module Discovery.
Import Analysis AnalysisFacts.

(** The float literals [0.1] and [0.2] (their binary64 values). *)
Definition float_0_1 : pyfloat := FFin (3602879701896397 # 36028797018963968).
Definition float_0_2 : pyfloat := FFin (3602879701896397 # 18014398509481984).

(** The entries of [real_cmb_results.json] that the report's reader uses
    (the type tag, the file name and the two float summaries are only
    printed back). *)
Record Results : Type := {
  data_points : nat;
  matches_found : nat;
  strong_matches : nat;
  top_matches : list Match
}.

(** [main], lines 273-327: when [matches] is not empty it is sorted in
    place and the report keeps [matches[:20]]; otherwise nothing is
    written.  The JSON file carries the values unchanged. *)
Definition report (cmb_data_len : nat) (matches : list Match) : option Results :=
  match matches with
  | [] => None
  | _ :: _ =>
      let sorted := sort_matches matches in
      Some {| data_points := cmb_data_len;
              matches_found := length sorted;
              strong_matches :=
                length (filter (fun m => fltb float_0_2 (fabs (correlation m))) sorted);
              top_matches := firstn 20 sorted |}
  end.

(** The analysis followed by the report; [None] when the analysis raises
    or nothing is written. *)
Definition analyze_and_report {np : Numpy} (st : rng_state)
    (cmb_data : list pyfloat) (psize n_samples : nat) (min_correlation : pyfloat)
  : option Results :=
  match matches_of (analyze_cmb_correlations st cmb_data psize n_samples
                      min_correlation) with
  | Some matches => report (length cmb_data) matches
  | None => None
  end.

(** [main] with its constants: patch size 2000, 3000 samples, threshold 0.1. *)
Definition main {np : Numpy} (st : rng_state) (cmb_data : list pyfloat)
  : option Results :=
  analyze_and_report st cmb_data 2000 3000 float_0_1.

(** The dict returned by [statistical_analysis]. *)
Record Stats : Type := {
  correlations : list pyfloat;
  separations : list pyfloat;
  sep_90 : nat;
  sep_180 : nat;
  sep_270 : nat;
  p_value : pyfloat;
  t_stat : pyfloat
}.

(** [sum(1 for s in separations if lo <= s <= hi)]. *)
Definition count_between (lo hi : Z) (separations : list pyfloat) : nat :=
  length (filter (fun s => fleb (of_int lo) s && fleb s (of_int hi)) separations).

Section Significance.

(** [scipy.stats.ttest_1samp(sample, popmean)]: the pair
    [(statistic, pvalue)]. *)
Variable ttest_1samp : list pyfloat -> pyfloat -> pyfloat * pyfloat.

(** [statistical_analysis(results)].  [None] is the [ZeroDivisionError]
    of the detection-rate line when [data_points] is zero. *)
Definition statistical_analysis (results : Results) : option Stats :=
  let matches := top_matches results in
  let all_correlations := map correlation matches in
  let seps := map separation_degrees matches in
  if data_points results =? 0 then None
  else
    let abs_correlations := map fabs all_correlations in
    let '(t, p) := ttest_1samp abs_correlations (of_int 0) in
    Some {| correlations := all_correlations;
            separations := seps;
            sep_90 := count_between 85 95 seps;
            sep_180 := count_between 175 185 seps;
            sep_270 := count_between 265 275 seps;
            p_value := p;
            t_stat := t |}.

End Significance.

(** *** The ranking *)

(** [a] may stand before [b]: [|a| >= |b|]. *)
Definition ranks_before (a b : Match) : Prop :=
  fgeb (fabs (correlation a)) (fabs (correlation b)) = true.

Definition not_nan (m : Match) : Prop := isnan (correlation m) = false.

Lemma insert_desc_perm (x : Match) (l : list Match) :
  Permutation (insert_desc x l) (x :: l).
Proof.
  induction l as [|y l IH]; simpl; [reflexivity|].
  destruct (fltb _ _); [|reflexivity].
  rewrite IH. apply perm_swap.
Qed.

Lemma sort_matches_perm (l : list Match) : Permutation (sort_matches l) l.
Proof.
  induction l as [|x l IH]; simpl; [reflexivity|].
  rewrite insert_desc_perm. now constructor.
Qed.

Lemma ranks_before_trans (a b c : Match) :
  ranks_before a b -> ranks_before b c -> ranks_before a c.
Proof. unfold ranks_before, fgeb. intros H1 H2. eapply fleb_trans; eassumption. Qed.

Lemma insert_desc_sorted (x : Match) (l : list Match) :
  not_nan x -> Forall not_nan l ->
  StronglySorted ranks_before l -> StronglySorted ranks_before (insert_desc x l).
Proof.
  intros Hx Hl Hs. induction Hs as [|y l Hs IH Hy]; simpl.
  - constructor; constructor.
  - inversion Hl as [|? ? Hny Hnl]; subst.
    destruct (fltb _ _) eqn:E.
    + constructor; [apply IH; exact Hnl|].
      apply (Permutation_Forall (Permutation_sym (insert_desc_perm x l))).
      constructor; [|exact Hy].
      unfold ranks_before, fgeb. apply fltb_fleb. exact E.
    + assert (Hxy : ranks_before x y).
      { unfold ranks_before, fgeb. apply fltb_false_fleb; try exact E;
          rewrite fabs_isnan; assumption. }
      constructor; [constructor; assumption|].
      constructor; [exact Hxy|].
      eapply Forall_impl; [|exact Hy].
      intros z Hz. eapply ranks_before_trans; eassumption.
Qed.

Lemma sort_matches_sorted (l : list Match) :
  Forall not_nan l -> StronglySorted ranks_before (sort_matches l).
Proof.
  induction 1 as [|x l Hx Hl IH]; simpl; [constructor|].
  apply insert_desc_sorted; [exact Hx | | exact IH].
  apply (Permutation_Forall (Permutation_sym (sort_matches_perm l))). exact Hl.
Qed.

Lemma In_skipn_In {A} (k : nat) (l : list A) (x : A) :
  In x (skipn k l) -> In x l.
Proof.
  intros H. rewrite <- (firstn_skipn k l). apply in_or_app. now right.
Qed.

(** In a ranked list every entry of a prefix stands before every entry of
    the rest. *)
Lemma sorted_prefix_dominates (l : list Match) (k : nat) (a b : Match) :
  StronglySorted ranks_before l ->
  In a (firstn k l) -> In b (skipn k l) -> ranks_before a b.
Proof.
  intros Hs. revert k. induction Hs as [|y l Hs IH Hy]; intros k Ha Hb.
  - rewrite firstn_nil in Ha. destruct Ha.
  - destruct k as [|k]; [destruct Ha|].
    simpl in Ha, Hb. destruct Ha as [<-|Ha].
    + rewrite Forall_forall in Hy. apply Hy.
      eapply In_skipn_In. exact Hb.
    + eapply IH; eassumption.
Qed.

Section ReportFacts.

Context {np : Numpy}.

Lemma analyze_not_nan (st : rng_state) (cmb_data : list pyfloat)
    (psize n_samples : nat) (t : pyfloat) (matches : list Match) :
  matches_of (analyze_cmb_correlations st cmb_data psize n_samples t) = Some matches ->
  Forall not_nan matches.
Proof.
  intros Hrun. apply Forall_forall. intros m Hin.
  pose proof (@analyze_In np st cmb_data psize n_samples t matches m Hrun Hin) as Hm.
  destruct Hm as (_ & start1 & separation & _ & _ & Hpm).
  pose proof (pair_match_inv _ _ _ _ _ _ Hpm) as (_ & _ & _ & _ & Hn & _).
  exact Hn.
Qed.

Lemma analyze_nonempty_data (st : rng_state) (cmb_data : list pyfloat)
    (psize n_samples : nat) (t : pyfloat) (matches : list Match) :
  matches_of (analyze_cmb_correlations st cmb_data psize n_samples t) = Some matches ->
  matches <> [] ->
  length cmb_data <> 0.
Proof.
  intros Hrun Hne.
  destruct matches as [|m ms]; [congruence|].
  pose proof (@analyze_In np st cmb_data psize n_samples t (m :: ms) m Hrun
                (or_introl eq_refl)) as Hm.
  destruct Hm as (_ & start1 & _ & Hs & _).
  apply sample_starts_lt in Hs.
  pose proof (filter_length_le isfinite cmb_data). lia.
Qed.

Variable ttest_1samp : list pyfloat -> pyfloat -> pyfloat * pyfloat.

(** [main] of [analyze_real_cmb.py] followed by [load_results] and
    [statistical_analysis] of [analyze_discovery.py], for any patch size,
    sample count and threshold. *)
Definition discovery_pipeline (st : rng_state) (cmb_data : list pyfloat)
    (psize n_samples : nat) (min_correlation : pyfloat) : option Stats :=
  match analyze_and_report st cmb_data psize n_samples min_correlation with
  | Some results => statistical_analysis ttest_1samp results
  | None => None
  end.

(** C9.  When the analysis retains matches, the significance tester calls
    the one-sample t-test with null mean [0] on the absolute correlations of
    the first twenty entries of the ranked match list, and returns its
    statistic and p-value.  That sample has [min(20, number of matches)]
    entries; the ranked list is a rearrangement of the matches in descending
    absolute correlation, so every match left out of the sample is no
    stronger than any match in it. *)
Theorem significance_on_top20 (st : rng_state) (cmb_data : list pyfloat)
    (psize n_samples : nat) (min_correlation : pyfloat) (matches : list Match) :
  matches_of (analyze_cmb_correlations st cmb_data psize n_samples min_correlation)
  = Some matches ->
  matches <> [] ->
  exists s : Stats,
    discovery_pipeline st cmb_data psize n_samples min_correlation = Some s /\
    (t_stat s, p_value s)
    = ttest_1samp (map fabs (map correlation (firstn 20 (sort_matches matches))))
                  (of_int 0) /\
    correlations s = map correlation (firstn 20 (sort_matches matches)) /\
    length (correlations s) = Nat.min 20 (length matches) /\
    Permutation (sort_matches matches) matches /\
    StronglySorted ranks_before (sort_matches matches) /\
    (forall a b,
       In a (firstn 20 (sort_matches matches)) ->
       In b (skipn 20 (sort_matches matches)) ->
       ranks_before a b).
Proof.
  intros Hrun Hne.
  pose proof (analyze_nonempty_data _ _ _ _ _ Hrun Hne) as Hlen.
  pose proof (analyze_not_nan _ _ _ _ _ Hrun) as Hnn.
  unfold discovery_pipeline, analyze_and_report. rewrite Hrun.
  pose proof (sort_matches_sorted Hnn) as Hsorted.
  pose proof (sort_matches_perm matches) as Hperm.
  assert (Hrep : report (length cmb_data) matches
                 = Some {| data_points := length cmb_data;
                           matches_found := length (sort_matches matches);
                           strong_matches :=
                             length (filter (fun m => fltb float_0_2 (fabs (correlation m)))
                                            (sort_matches matches));
                           top_matches := firstn 20 (sort_matches matches) |}).
  { destruct matches; [congruence|reflexivity]. }
  rewrite Hrep. unfold statistical_analysis. cbn [data_points top_matches].
  destruct (length cmb_data =? 0) eqn:E0; [apply Nat.eqb_eq in E0; congruence|].
  destruct (ttest_1samp _ _) as [t p] eqn:Et.
  eexists. split; [reflexivity|]. cbn [t_stat p_value correlations].
  split; [reflexivity|]. split; [reflexivity|].
  split.
  { rewrite length_map, length_firstn. f_equal.
    apply Permutation_length. exact Hperm. }
  split; [exact Hperm|]. split; [exact Hsorted|].
  intros a b Ha Hb. eapply sorted_prefix_dominates; eassumption.
Qed.

End ReportFacts.

(** A stand-in for the t-test in concrete runs: the number of observations
    as statistic, no p-value. *)
Definition count_ttest (sample : list pyfloat) (popmean : pyfloat)
  : pyfloat * pyfloat :=
  (of_int (Z.of_nat (length sample)), FNaN).

(** The run on [ramp 10] with patch size 2 and eight samples retains 24
    matches. *)
Definition ramp10_matches : list Match :=
  Eval vm_compute in
    match matches_of (analyze_cmb_correlations (np := Toy.toy_numpy) 0
                        (Engine.ramp 10) 2 8 Engine.tenth) with
    | Some ms => ms
    | None => []
    end.

Lemma significance_on_top20_witness :
  exists s : Stats,
    discovery_pipeline (np := Toy.toy_numpy) count_ttest 0 (Engine.ramp 10) 2 8 Engine.tenth
    = Some s /\
    t_stat s = of_int 20 /\
    length (correlations s) = 20 /\
    length ramp10_matches = 24.
Proof.
  destruct (@significance_on_top20 Toy.toy_numpy count_ttest 0 (Engine.ramp 10) 2 8
              Engine.tenth ramp10_matches) as (s & Hs & Ht & _ & Hlen & _).
  - vm_compute. reflexivity.
  - discriminate.
  - exists s. split; [exact Hs|]. split; [|split; [|reflexivity]].
    + apply (f_equal fst) in Ht. exact Ht.
    + rewrite Hlen. reflexivity.
Defined.

End Discovery.

(* ===================================================================== *)
(** ** [read_fits_simple] *)
(* ===================================================================== *)

Module Fits.

Abbreviation bytes := (list byte) (only parsing).

(** *** The file object *)

Record file : Type := { content : bytes; pos : nat }.

(** [f.read(n)]: up to [n] bytes from the current position. *)
Definition f_read (f : file) (n : nat) : bytes * file :=
  let chunk := firstn n (skipn (pos f) (content f)) in
  (chunk, {| content := content f; pos := pos f + length chunk |}).

(** [f.seek(offset)]. *)
Definition f_seek (f : file) (offset : nat) : file :=
  {| content := content f; pos := offset |}.

(** [f.read()]: everything from the current position. *)
Definition f_read_all (f : file) : bytes := skipn (pos f) (content f).

(** *** Strings *)

(** [b.decode('ascii', errors='ignore')]: bytes above 127 are dropped. *)
Definition decode_ascii_ignore (b : bytes) : string :=
  string_of_list_ascii
    (map ascii_of_byte (filter (fun x => (Byte.to_N x <? 128)%N) b)).

(** [s.startswith(p)]. *)
Definition startswith (s p : string) : bool := String.prefix p s.

(** [s.split(sep)] for a one-character separator. *)
Fixpoint split (sep : ascii) (s : string) : list string :=
  match s with
  | EmptyString => [EmptyString]
  | String c s' =>
      if Ascii.eqb c sep then EmptyString :: split sep s'
      else match split sep s' with
           | [] => [String c EmptyString]
           | h :: t => String c h :: t
           end
  end.

(** Whitespace of [str.strip()] and of [int()] in the ASCII range:
    tab to carriage return, the four separators 28-31, and space. *)
Definition is_space (c : ascii) : bool :=
  let n := nat_of_ascii c in
  ((9 <=? n) && (n <=? 13)) || ((28 <=? n) && (n <=? 31)) || (n =? 32).

Fixpoint lstrip (s : string) : string :=
  match s with
  | EmptyString => EmptyString
  | String c s' => if is_space c then lstrip s' else s
  end.

Fixpoint rstrip (s : string) : string :=
  match s with
  | EmptyString => EmptyString
  | String c s' =>
      match rstrip s' with
      | EmptyString => if is_space c then EmptyString else String c EmptyString
      | r => String c r
      end
  end.

Definition strip (s : string) : string := lstrip (rstrip s).

Definition digit_of (c : ascii) : option Z :=
  let n := nat_of_ascii c in
  if (48 <=? n) && (n <=? 57) then Some (Z.of_nat (n - 48)) else None.

(** Digits with single underscores between them; [after_digit] says that
    the previous character was a digit. *)
Fixpoint parse_digits (acc : Z) (after_digit : bool) (s : string) : option Z :=
  match s with
  | EmptyString => if after_digit then Some acc else None
  | String c s' =>
      match digit_of c with
      | Some d => parse_digits (acc * 10 + d) true s'
      | None =>
          if Ascii.eqb c "_"%char && after_digit then parse_digits acc false s'
          else None
      end
  end.

(** [int(s)] in base ten; [None] is [ValueError]. *)
Definition py_int (s : string) : option Z :=
  match strip s with
  | String "-" r => option_map Z.opp (parse_digits 0 false r)
  | String "+" r => parse_digits 0 false r
  | r => parse_digits 0 false r
  end.

(** *** The header *)

(** Lines 26-30: read 80-byte cards until one starts with [END].  The loop
    has no other exit; [fuel] bounds the number of reads and [None] says
    that it was not enough. *)
Fixpoint read_header (fuel : nat) (f : file) (header_cards : list string)
  : option (list string * file) :=
  match fuel with
  | O => None
  | S fuel' =>
      let '(raw, f') := f_read f 80 in
      let card := decode_ascii_ignore raw in
      let header_cards' := header_cards ++ [card] in
      if startswith card "END"%string then Some (header_cards', f')
      else read_header fuel' f' header_cards'
  end.

Record header_fields : Type := {
  naxis : option Z;
  naxis1 : option Z;
  bitpix : option Z
}.

(** [int(card.split('=')[1].split('/')[0].strip())]. *)
Definition card_value (card : string) : option Z :=
  py_int (strip (hd EmptyString (split "/" (nth 1 (split "=" card) EmptyString)))).

(** Lines 42-48; [None] is the [ValueError] of a value that is not an
    integer. *)
Fixpoint scan_cards (header_cards : list string) (h : header_fields)
  : option header_fields :=
  match header_cards with
  | [] => Some h
  | card :: rest =>
      if startswith card "NAXIS   ="%string then
        match card_value card with
        | Some v => scan_cards rest {| naxis := Some v; naxis1 := naxis1 h; bitpix := bitpix h |}
        | None => None
        end
      else if startswith card "NAXIS1  ="%string then
        match card_value card with
        | Some v => scan_cards rest {| naxis := naxis h; naxis1 := Some v; bitpix := bitpix h |}
        | None => None
        end
      else if startswith card "BITPIX  ="%string then
        match card_value card with
        | Some v => scan_cards rest {| naxis := naxis h; naxis1 := naxis1 h; bitpix := Some v |}
        | None => None
        end
      else scan_cards rest h
  end.

Definition no_fields : header_fields :=
  {| naxis := None; naxis1 := None; bitpix := None |}.

(** *** The data array *)

(** ['>f4'], ['>f8'], ['>i4']. *)
Inductive dtype : Type := be_f4 | be_f8 | be_i4.

Definition itemsize (d : dtype) : nat :=
  match d with be_f8 => 8 | be_f4 | be_i4 => 4 end.

(** Lines 56-63. *)
Definition dtype_of_bitpix (b : option Z) : dtype :=
  match b with
  | Some (-32)%Z => be_f4
  | Some (-64)%Z => be_f8
  | Some 32%Z => be_i4
  | _ => be_f4
  end.

(** The bit pattern of an element: its bytes read big-endian. *)
Definition be_to_Z (item : bytes) : Z :=
  fold_left (fun acc b => (acc * 256 + Z.of_N (Byte.to_N b))%Z) item 0%Z.

Fixpoint take_items (count width : nat) (buf : bytes) : list bytes :=
  match count with
  | O => []
  | S count' => firstn width buf :: take_items count' width (skipn width buf)
  end.

(** [np.frombuffer(buf, dtype=d)]: the elements as bit patterns; [None] is
    the [ValueError] of a buffer that is not a whole number of elements. *)
Definition frombuffer (buf : bytes) (d : dtype) : option (list Z) :=
  if length buf mod itemsize d =? 0
  then Some (map be_to_Z (take_items (length buf / itemsize d) (itemsize d) buf))
  else None.

(** [data[:stop]]. *)
Definition slice_to {A} (data : list A) (stop : Z) : list A :=
  if (0 <=? stop)%Z then firstn (Z.to_nat stop) data
  else firstn (length data - Z.to_nat (- stop)) data.

(** Lines 68-69: [if naxis1: data = data[:naxis1]]; [None] and [0] are
    both false. *)
Definition trim_to_naxis1 {A} (n1 : option Z) (data : list A) : list A :=
  match n1 with
  | Some n => if (n =? 0)%Z then data else slice_to data n
  | None => data
  end.

(** The byte with value [z mod 256] and the big-endian bytes of a bit
    pattern, used to lay out payloads. *)
Definition byte_of_Z (z : Z) : byte :=
  match Byte.of_N (Z.to_N z) with Some b => b | None => "000"%byte end.

Fixpoint be_bytes (width : nat) (v : Z) : bytes :=
  match width with
  | O => []
  | S width' => be_bytes width' (v / 256) ++ [byte_of_Z (v mod 256)]
  end.

(** *** The reader *)

Inductive outcome : Type :=
| Reading                                (* the header loop has not ended *)
| ReturnNone                             (* [except Exception: return None] *)
| ReturnData (d : dtype) (data : list Z).

(** [read_fits_simple] on a file with the given content.  [np.min] of the
    range line raises on an empty array. *)
Definition read_fits_simple (fuel : nat) (file_content : bytes) : outcome :=
  match read_header fuel {| content := file_content; pos := 0 |} [] with
  | None => Reading
  | Some (header_cards, f) =>
      let header_size := length header_cards * 80 in
      let header_blocks := (header_size + 2879) / 2880 in
      let total_header_size := header_blocks * 2880 in
      match scan_cards header_cards no_fields with
      | None => ReturnNone
      | Some h =>
          let f := f_seek f total_header_size in
          let d := dtype_of_bitpix (bitpix h) in
          match frombuffer (f_read_all f) d with
          | None => ReturnNone
          | Some data =>
              let data := trim_to_naxis1 (naxis1 h) data in
              match data with
              | [] => ReturnNone
              | _ :: _ => ReturnData d data
              end
          end
      end
  end.

End Fits.

(* ===================================================================== *)
(** ** Facts about the reader *)
(* ===================================================================== *)

Module FitsFacts.
Import Fits.

(** The [k]-th 80-byte record of a stream, decoded. *)
Definition record_at (file_content : bytes) (k : nat) : string :=
  decode_ascii_ignore (firstn 80 (skipn (80 * k) file_content)).

(** Record [k] is the first one that starts with [END]. *)
Definition first_end_at (file_content : bytes) (k : nat) : Prop :=
  startswith (record_at file_content k) "END" = true /\
  forall j, j < k -> startswith (record_at file_content j) "END" = false.

(** *** The header loop *)

Lemma read_past_end (file_content : bytes) (p : nat) :
  length file_content <= p -> firstn 80 (skipn p file_content) = [].
Proof. intros H. rewrite skipn_all2 by exact H. reflexivity. Qed.

(** Without a record that starts with [END] at or after the current
    position the loop goes on for ever: once the stream is exhausted every
    read returns the empty string. *)
Lemma read_header_stuck_from (file_content : bytes) (p0 : nat) :
  (forall k, p0 <= 80 * k -> startswith (record_at file_content k) "END" = false) ->
  forall fuel p header_cards,
    length file_content <= p \/ (exists k, p = 80 * k /\ p0 <= p) ->
    read_header fuel {| content := file_content; pos := p |} header_cards = None.
Proof.
  intros Hno. induction fuel as [|fuel IH]; intros p header_cards Hp; [reflexivity|].
  cbn [read_header f_read content pos].
  destruct Hp as [Hp|(k & -> & Hp0)].
  - rewrite read_past_end by exact Hp.
    change (startswith (decode_ascii_ignore []) "END") with false. cbv iota.
    apply IH. left. simpl. lia.
  - fold (record_at file_content k). rewrite (Hno k Hp0).
    apply IH. rewrite length_firstn, length_skipn.
    destruct (Nat.le_gt_cases 80 (length file_content - 80 * k)) as [Hfull|Hshort].
    + right. exists (S k). lia.
    + left. lia.
Qed.

Lemma read_header_stuck (file_content : bytes) :
  (forall k, startswith (record_at file_content k) "END" = false) ->
  forall fuel p header_cards,
    length file_content <= p \/ (exists k, p = 80 * k) ->
    read_header fuel {| content := file_content; pos := p |} header_cards = None.
Proof.
  intros Hno fuel p header_cards Hp.
  apply (@read_header_stuck_from file_content 0); [auto|].
  destruct Hp as [Hp|[k ->]]; [now left|right]. exists k. split; [reflexivity|lia].
Qed.

Lemma end_record_not_empty (file_content : bytes) (k : nat) :
  startswith (record_at file_content k) "END" = true ->
  80 * k < length file_content.
Proof.
  intros H. destruct (Nat.le_gt_cases (length file_content) (80 * k)) as [Hle|Hlt];
    [|exact Hlt].
  unfold record_at in H. rewrite read_past_end in H by exact Hle. discriminate H.
Qed.

(** With a first [END] record at index [k], [k + 1] reads end the loop and
    the cards are the records [0 .. k]. *)
Lemma read_header_run (file_content : bytes) (k : nat) :
  first_end_at file_content k ->
  forall n j fuel header_cards,
    j + n = k -> n < fuel ->
    exists f,
      read_header fuel {| content := file_content; pos := 80 * j |} header_cards
      = Some (header_cards ++ map (record_at file_content) (seq j (S n)), f) /\
      content f = file_content.
Proof.
  intros [Hend Hbefore]. pose proof (end_record_not_empty _ _ Hend) as Hlen.
  induction n as [|n IH]; intros j fuel header_cards Hj Hfuel;
    (destruct fuel as [|fuel]; [lia|]);
    cbn [read_header f_read content pos]; fold (record_at file_content j).
  - replace j with k by lia. rewrite Hend.
    eexists. split; reflexivity.
  - rewrite (Hbefore j) by lia.
    assert (Hfull : length (firstn 80 (skipn (80 * j) file_content)) = 80).
    { rewrite length_firstn, length_skipn. lia. }
    rewrite Hfull. replace (80 * j + 80) with (80 * S j) by lia.
    destruct (IH (S j) fuel (header_cards ++ [record_at file_content j])
                ltac:(lia) ltac:(lia)) as (f & Hf & Hc).
    exists f. split; [|exact Hc]. rewrite Hf. f_equal. f_equal.
    rewrite <- app_assoc. reflexivity.
Qed.

Lemma read_header_first_end (file_content : bytes) (k fuel : nat) :
  first_end_at file_content k -> k < fuel ->
  exists f,
    read_header fuel {| content := file_content; pos := 0 |} []
    = Some (map (record_at file_content) (seq 0 (S k)), f) /\
    content f = file_content.
Proof.
  intros Hk Hfuel.
  destruct (@read_header_run file_content k Hk k 0 fuel [] eq_refl Hfuel)
    as (f & Hf & Hc).
  exists f. split; [exact Hf | exact Hc].
Qed.

(** Among the records that start with [END] there is a first one. *)
Lemma first_end_exists (file_content : bytes) (k : nat) :
  startswith (record_at file_content k) "END" = true ->
  exists k0, k0 <= k /\ first_end_at file_content k0.
Proof.
  induction k as [k IH] using lt_wf_ind. intros Hend.
  destruct (existsb (fun j => startswith (record_at file_content j) "END") (seq 0 k))
    eqn:E.
  - apply existsb_exists in E. destruct E as (j & Hj & Hjend).
    apply in_seq in Hj.
    destruct (IH j ltac:(lia) Hjend) as (k0 & Hle & Hfirst).
    exists k0. split; [lia | exact Hfirst].
  - exists k. split; [lia|]. split; [exact Hend|].
    intros j Hj.
    destruct (startswith (record_at file_content j) "END") eqn:Ej; [|reflexivity].
    assert (Hex : existsb (fun j => startswith (record_at file_content j) "END")
                          (seq 0 k) = true).
    { apply existsb_exists. exists j. split; [apply in_seq; lia | exact Ej]. }
    congruence.
Qed.

(** The header loop ends exactly on the streams that hold a record starting
    with [END]. *)
Lemma header_loop_ends_iff (file_content : bytes) :
  (exists fuel, read_fits_simple fuel file_content <> Reading) <->
  (exists k, startswith (record_at file_content k) "END" = true).
Proof.
  split.
  - intros (fuel & Hfuel).
    destruct (existsb (fun j => startswith (record_at file_content j) "END")
                      (seq 0 fuel)) eqn:E.
    + apply existsb_exists in E. destruct E as (j & _ & Hj). now exists j.
    + exfalso. apply Hfuel. unfold read_fits_simple.
      assert (Hrun : forall n j header_cards,
                j + n <= fuel ->
                80 * j <= length file_content ->
                read_header n {| content := file_content; pos := 80 * j |} header_cards
                = None).
      { induction n as [|n IHn]; intros j header_cards Hjn Hpos; [reflexivity|].
        cbn [read_header f_read content pos]. fold (record_at file_content j).
        assert (Hj : startswith (record_at file_content j) "END" = false).
        { destruct (startswith (record_at file_content j) "END") eqn:Ej; [|reflexivity].
          assert (Hex : existsb (fun j => startswith (record_at file_content j) "END")
                                (seq 0 fuel) = true).
          { apply existsb_exists. exists j. split; [apply in_seq; lia | exact Ej]. }
          congruence. }
        rewrite Hj.
        destruct (Nat.le_gt_cases 80 (length file_content - 80 * j)) as [Hfull|Hshort].
        - replace (80 * j + length (firstn 80 (skipn (80 * j) file_content)))
            with (80 * S j)
            by (rewrite length_firstn, length_skipn; lia).
          apply IHn; lia.
        - apply (@read_header_stuck_from file_content (length file_content));
            [|left; rewrite length_firstn, length_skipn; lia].
          intros i Hi. unfold record_at. rewrite read_past_end; [reflexivity|exact Hi]. }
      change 0 with (80 * 0) at 1.
      rewrite (Hrun fuel 0 []); [reflexivity | lia | lia].
  - intros (k & Hk).
    destruct (first_end_exists _ _ Hk) as (k0 & _ & Hfirst).
    exists (S k0).
    destruct (@read_header_first_end file_content k0 (S k0) Hfirst ltac:(lia))
      as (f & Hf & _).
    unfold read_fits_simple. rewrite Hf.
    destruct (scan_cards _ _) as [h|]; [|discriminate].
    destruct (frombuffer _ _) as [data|]; [|discriminate].
    destruct (trim_to_naxis1 _ _); discriminate.
Qed.

(** *** The reader after the header loop *)

Definition header_cards_of (file_content : bytes) (k : nat) : list string :=
  map (record_at file_content) (seq 0 (S k)).

(** The bytes after the header block. *)
Definition payload_of (file_content : bytes) (k : nat) : bytes :=
  skipn ((S k * 80 + 2879) / 2880 * 2880) file_content.

(** The card starts with one of the three keys. *)
Definition keyed (card : string) : bool :=
  startswith card "NAXIS   =" || startswith card "NAXIS1  ="
  || startswith card "BITPIX  =".

(** Number of elements left of [count] by the trimming of lines 68-69. *)
Definition elements_kept (n1 : option Z) (count : nat) : nat :=
  match n1 with
  | None => count
  | Some n =>
      if (n =? 0)%Z then count
      else if (0 <=? n)%Z then Nat.min (Z.to_nat n) count
      else count - Z.to_nat (- n)
  end.

Lemma read_fits_simple_eq (file_content : bytes) (k fuel : nat) :
  first_end_at file_content k -> k < fuel ->
  read_fits_simple fuel file_content =
  match scan_cards (header_cards_of file_content k) no_fields with
  | None => ReturnNone
  | Some h =>
      match frombuffer (payload_of file_content k) (dtype_of_bitpix (bitpix h)) with
      | None => ReturnNone
      | Some data =>
          match trim_to_naxis1 (naxis1 h) data with
          | [] => ReturnNone
          | x :: r => ReturnData (dtype_of_bitpix (bitpix h)) (x :: r)
          end
      end
  end.
Proof.
  intros Hk Hfuel.
  destruct (read_header_first_end Hk Hfuel) as (f & Hf & Hc).
  unfold read_fits_simple. rewrite Hf.
  fold (header_cards_of file_content k).
  replace (length (header_cards_of file_content k)) with (S k)
    by (unfold header_cards_of; now rewrite length_map, length_seq).
  destruct (scan_cards _ _) as [h|]; [|reflexivity].
  unfold f_read_all, f_seek. cbn [content pos]. rewrite Hc.
  fold (payload_of file_content k).
  destruct (frombuffer _ _) as [data|]; [|reflexivity].
  destruct (trim_to_naxis1 _ _); reflexivity.
Qed.

Lemma scan_cards_None_iff (header_cards : list string) (h : header_fields) :
  scan_cards header_cards h = None <->
  exists card, In card header_cards /\ keyed card = true /\ card_value card = None.
Proof.
  revert h. induction header_cards as [|card rest IH]; intros h.
  - simpl. split; [discriminate|]. intros (c & [] & _).
  - cbn [scan_cards]. unfold keyed.
    destruct (startswith card "NAXIS   =") eqn:E1;
      [|destruct (startswith card "NAXIS1  =") eqn:E2;
        [|destruct (startswith card "BITPIX  =") eqn:E3]].
    all: try (destruct (card_value card) as [v|] eqn:Ev;
      [ rewrite IH; split;
        [ intros (c & Hin & Hk & Hv); exists c; (split; [now right|]); auto
        | intros (c & [<-|Hin] & Hk & Hv); [congruence|]; exists c; auto ]
      | split; [intros _|reflexivity];
        exists card; split; [now left|]; unfold keyed; rewrite ?E1, ?E2, ?E3;
        split; [reflexivity|exact Ev] ]).
    rewrite IH. split.
    + intros (c & Hin & Hk & Hv). exists c. split; [now right|]. auto.
    + intros (c & [<-|Hin] & Hk & Hv).
      * unfold keyed in Hk. rewrite E1, E2, E3 in Hk. discriminate.
      * exists c. auto.
Qed.

Lemma length_take_items (count width : nat) (buf : bytes) :
  length (take_items count width buf) = count.
Proof.
  revert buf. induction count as [|count IH]; intros buf; simpl; [reflexivity|].
  now rewrite IH.
Qed.

Lemma frombuffer_Some (buf : bytes) (d : dtype) (data : list Z) :
  frombuffer buf d = Some data ->
  length buf mod itemsize d = 0 /\ length data = length buf / itemsize d.
Proof.
  unfold frombuffer. destruct (_ =? 0) eqn:E; [|discriminate].
  intros [= <-]. apply Nat.eqb_eq in E.
  split; [exact E|]. now rewrite length_map, length_take_items.
Qed.

Lemma frombuffer_None (buf : bytes) (d : dtype) :
  frombuffer buf d = None <-> length buf mod itemsize d <> 0.
Proof.
  unfold frombuffer. destruct (_ =? 0) eqn:E.
  - apply Nat.eqb_eq in E. split; [discriminate|congruence].
  - apply Nat.eqb_neq in E. split; [intros _; exact E|reflexivity].
Qed.

Lemma length_trim_to_naxis1 {A} (n1 : option Z) (data : list A) :
  length (trim_to_naxis1 n1 data) = elements_kept n1 (length data).
Proof.
  unfold trim_to_naxis1, elements_kept, slice_to.
  destruct n1 as [n|]; [|reflexivity].
  destruct (n =? 0)%Z; [reflexivity|].
  destruct (0 <=? n)%Z; rewrite length_firstn; lia.
Qed.

(** *** Laying out and reading back a file *)

Lemma byte_of_Z_value (z : Z) :
  (0 <= z < 256)%Z -> Z.of_N (Byte.to_N (byte_of_Z z)) = z.
Proof.
  intros Hz. unfold byte_of_Z.
  destruct (Byte.of_N (Z.to_N z)) as [b|] eqn:E.
  - apply Byte.to_of_N in E. rewrite E. lia.
  - apply Byte.of_N_None_iff in E. lia.
Qed.

Lemma be_to_Z_snoc (item : bytes) (b : byte) :
  be_to_Z (item ++ [b]) = (be_to_Z item * 256 + Z.of_N (Byte.to_N b))%Z.
Proof. unfold be_to_Z. rewrite fold_left_app. reflexivity. Qed.

Lemma length_be_bytes (width : nat) (v : Z) : length (be_bytes width v) = width.
Proof.
  revert v. induction width as [|w IH]; intros v; simpl; [reflexivity|].
  rewrite length_app, IH. simpl. lia.
Qed.

Lemma be_to_Z_be_bytes (width : nat) (v : Z) :
  (0 <= v < 256 ^ Z.of_nat width)%Z -> be_to_Z (be_bytes width v) = v.
Proof.
  revert v. induction width as [|w IH]; intros v Hv.
  - simpl in *. cbn. lia.
  - cbn [be_bytes]. rewrite be_to_Z_snoc.
    rewrite byte_of_Z_value by (apply Z.mod_pos_bound; lia).
    rewrite IH.
    + pose proof (Z.div_mod v 256 ltac:(lia)). lia.
    + rewrite Nat2Z.inj_succ, Z.pow_succ_r in Hv by lia.
      split; [apply Z.div_pos; lia|].
      apply Z.div_lt_upper_bound; lia.
Qed.

Lemma record_in_concat (recs : list bytes) (rest : bytes) (j : nat) :
  Forall (fun r => length r = 80) recs -> j < length recs ->
  firstn 80 (skipn (80 * j) (concat recs ++ rest)) = nth j recs [].
Proof.
  intros Hall. revert j. induction Hall as [|r recs Hr Hall IH]; intros j Hj.
  - simpl in Hj. lia.
  - cbn [concat]. rewrite <- app_assoc. destruct j as [|j].
    + rewrite Nat.mul_0_r. cbn [skipn nth]. rewrite firstn_app, Hr, Nat.sub_diag.
      rewrite firstn_all2 by lia. cbn. apply app_nil_r.
    + cbn [nth]. rewrite skipn_app, Hr.
      rewrite skipn_all2 by lia. cbn [app].
      replace (80 * S j - 80) with (80 * j) by lia.
      apply IH. simpl in Hj. lia.
Qed.

Lemma map_nth_seq {A} (l : list A) (d : A) :
  map (fun j => nth j l d) (seq 0 (length l)) = l.
Proof.
  induction l as [|x l IH]; [reflexivity|].
  cbn [length seq map nth]. f_equal.
  rewrite <- seq_shift, map_map. exact IH.
Qed.

Lemma take_items_concat (width : nat) (items : list bytes) (c : nat) (rest : bytes) :
  Forall (fun i => length i = width) items ->
  take_items (length items + c) width (concat items ++ rest)
  = items ++ take_items c width rest.
Proof.
  induction 1 as [|i items Hi Hall IH]; [reflexivity|].
  cbn [length Nat.add take_items concat app]. rewrite <- app_assoc.
  rewrite firstn_app, Hi, Nat.sub_diag, firstn_all2 by lia.
  cbn [firstn]. rewrite app_nil_r. f_equal.
  rewrite skipn_app, Hi, Nat.sub_diag, skipn_all2 by lia. cbn [skipn app].
  exact IH.
Qed.

Lemma length_concat_uniform (width : nat) (items : list bytes) :
  Forall (fun i => length i = width) items ->
  length (concat items) = length items * width.
Proof.
  induction 1 as [|i items Hi Hall IH]; [reflexivity|].
  cbn [concat length]. rewrite length_app, Hi, IH. lia.
Qed.

Lemma itemsize_pos (d : dtype) : 0 < itemsize d.
Proof. destruct d; simpl; lia. Qed.

Lemma frombuffer_payload (d : dtype) (values : list Z) (trailing : bytes) :
  Forall (fun v => (0 <= v < 256 ^ Z.of_nat (itemsize d))%Z) values ->
  length trailing mod itemsize d = 0 ->
  exists extra,
    frombuffer (flat_map (be_bytes (itemsize d)) values ++ trailing) d
    = Some (values ++ extra).
Proof.
  intros Hv Ht. pose proof (itemsize_pos d) as Hw.
  rewrite flat_map_concat_map.
  remember (map (be_bytes (itemsize d)) values) as items eqn:Eitems.
  assert (Hitems : Forall (fun i => length i = itemsize d) items).
  { subst items. apply Forall_forall. intros i Hi. apply in_map_iff in Hi.
    destruct Hi as (v & <- & _). apply length_be_bytes. }
  assert (Hback : map be_to_Z items = values).
  { subst items. rewrite map_map.
    rewrite <- (map_id values) at 2. apply map_ext_in.
    intros v Hin. rewrite Forall_forall in Hv. apply be_to_Z_be_bytes. apply Hv, Hin. }
  unfold frombuffer.
  rewrite length_app, (length_concat_uniform Hitems).
  rewrite (Nat.add_comm (length items * itemsize d)).
  rewrite Nat.Div0.mod_add, Ht. cbn [Nat.eqb].
  rewrite Nat.div_add by lia.
  rewrite (Nat.add_comm (length trailing / itemsize d)).
  rewrite (take_items_concat _ _ Hitems).
  rewrite map_app, Hback. eexists. reflexivity.
Qed.

Lemma trim_declared {A} (m : nat) (values extra : list A) :
  1 <= m -> length values = m ->
  trim_to_naxis1 (Some (Z.of_nat m)) (values ++ extra) = values.
Proof.
  intros Hm Hlen. unfold trim_to_naxis1, slice_to.
  destruct (Z.of_nat m =? 0)%Z eqn:E0; [apply Z.eqb_eq in E0; lia|].
  destruct (0 <=? Z.of_nat m)%Z eqn:E1; [|apply Z.leb_gt in E1; lia].
  rewrite Nat2Z.id, firstn_app, Hlen, Nat.sub_diag.
  rewrite firstn_all2 by lia. cbn [firstn]. apply app_nil_r.
Qed.

Lemma concat_record (recs : list bytes) (rest : bytes) (j : nat) :
  Forall (fun r => length r = 80) recs -> j < length recs ->
  record_at (concat recs ++ rest) j = decode_ascii_ignore (nth j recs []).
Proof. intros Hall Hj. unfold record_at. now rewrite record_in_concat. Qed.

Lemma concat_first_end (body : list bytes) (end_card rest : bytes) :
  Forall (fun r => length r = 80) (body ++ [end_card]) ->
  Forall (fun r => startswith (decode_ascii_ignore r) "END" = false) body ->
  startswith (decode_ascii_ignore end_card) "END" = true ->
  first_end_at (concat (body ++ [end_card]) ++ rest) (length body).
Proof.
  intros Hsize Hbody Hend.
  assert (Hl : length (body ++ [end_card]) = S (length body))
    by (rewrite length_app; simpl; lia).
  split.
  - rewrite concat_record by (auto; lia). rewrite nth_middle. exact Hend.
  - intros j Hj. rewrite concat_record by (auto; lia).
    rewrite app_nth1 by exact Hj.
    rewrite Forall_forall in Hbody. apply Hbody. now apply nth_In.
Qed.

Lemma concat_cards (body : list bytes) (end_card rest : bytes) :
  Forall (fun r => length r = 80) (body ++ [end_card]) ->
  header_cards_of (concat (body ++ [end_card]) ++ rest) (length body)
  = map decode_ascii_ignore (body ++ [end_card]).
Proof.
  intros Hsize.
  assert (Hl : length (body ++ [end_card]) = S (length body))
    by (rewrite length_app; simpl; lia).
  unfold header_cards_of. rewrite <- Hl.
  transitivity (map decode_ascii_ignore
                  (map (fun j => nth j (body ++ [end_card]) [])
                       (seq 0 (length (body ++ [end_card])))));
    [|now rewrite map_nth_seq].
  rewrite map_map.
  apply map_ext_in. intros j Hj. apply in_seq in Hj.
  apply concat_record; [exact Hsize | lia].
Qed.

Lemma payload_after_header (header padding rest : bytes) (k : nat) :
  length (header ++ padding) = (S k * 80 + 2879) / 2880 * 2880 ->
  payload_of (header ++ padding ++ rest) k = rest.
Proof.
  intros Hpad. unfold payload_of. rewrite <- Hpad.
  rewrite (app_assoc header padding).
  rewrite skipn_app, skipn_all, Nat.sub_diag. reflexivity.
Qed.

(** *** Sample files *)

(** A header card: the text padded with blanks to 80 bytes. *)
Definition card (text : string) : bytes :=
  list_byte_of_string text ++ repeat " "%byte (80 - String.length text).

Definition blanks (n : nat) : bytes := repeat " "%byte n.

(** A one-block primary header with the given [BITPIX] and [NAXIS1]
    values: five cards and 2480 bytes of padding. *)
Definition primary_header (bitpix_text naxis1_text : string) : bytes :=
  card "SIMPLE  =                    T"
  ++ card ("BITPIX  = " ++ bitpix_text ++ " / bits per element")
  ++ card "NAXIS   =                    1"
  ++ card ("NAXIS1  = " ++ naxis1_text)
  ++ card "END"
  ++ blanks 2480.

(** Two 32-bit floats declared, six payload bytes present. *)
Definition odd_payload_file : bytes :=
  primary_header "-32" "2" ++ [ "063"; "128"; "000"; "000"; "064"; "000" ]%byte.

(** No element declared, no payload. *)
Definition zero_axis_file : bytes := primary_header "-64" "0".

(** A header cut off before its [END] card. *)
Definition truncated_header_file : bytes :=
  card "SIMPLE  =                    T" ++ card "BITPIX  =                  -32".

Ltac first_end_by_cases :=
  split;
  [ vm_compute; reflexivity
  | let j := fresh "j" in let Hj := fresh "Hj" in
    intros j Hj;
    repeat (destruct j as [|j]; [vm_compute; reflexivity|]); lia ].

Lemma odd_payload_first_end : first_end_at odd_payload_file 4.
Proof. first_end_by_cases. Qed.

Lemma zero_axis_first_end : first_end_at zero_axis_file 4.
Proof. first_end_by_cases. Qed.

(** *** Failure of the reader *)

(** C4 (what the loop does).  On a stream in which no 80-byte record
    starts with [END] the header loop never ends: whatever the number of
    reads allowed, the reader is still in the loop.  It neither returns data
    nor fails. *)
Theorem header_loop_never_ends (file_content : bytes) :
  (forall k, startswith (record_at file_content k) "END" = false) ->
  forall fuel, read_fits_simple fuel file_content = Reading.
Proof.
  intros Hno fuel. unfold read_fits_simple.
  rewrite (@read_header_stuck file_content Hno); [reflexivity|].
  right. exists 0. reflexivity.
Qed.

Lemma header_loop_never_ends_witness :
  read_fits_simple 1000 truncated_header_file = Reading.
Proof.
  apply header_loop_never_ends.
  intros k. do 2 (destruct k as [|k]; [vm_compute; reflexivity|]).
  unfold record_at. rewrite read_past_end; [reflexivity|].
  vm_compute length. lia.
Defined.

(** C3 (as the code has it).  On a stream whose header loop finds an [END]
    record the reader returns [None] exactly when a card that starts with
    one of the three keys carries a value [int] rejects, or the bytes after
    the header block are not a whole number of elements of the selected
    type, or no element is left after the trimming to [NAXIS1].  It never
    returns an empty array, so a failure cannot be taken for one. *)
Theorem read_fits_failure_cases (file_content : bytes) (k fuel : nat) :
  first_end_at file_content k -> k < fuel ->
  (read_fits_simple fuel file_content = ReturnNone <->
     (exists c, In c (header_cards_of file_content k) /\
                keyed c = true /\ card_value c = None) \/
     (exists h, scan_cards (header_cards_of file_content k) no_fields = Some h /\
        (length (payload_of file_content k)
           mod itemsize (dtype_of_bitpix (bitpix h)) <> 0 \/
         elements_kept (naxis1 h)
           (length (payload_of file_content k)
              / itemsize (dtype_of_bitpix (bitpix h))) = 0))) /\
  (forall d, read_fits_simple fuel file_content <> ReturnData d []) /\
  read_fits_simple fuel file_content <> Reading.
Proof.
  intros Hk Hfuel. rewrite (read_fits_simple_eq Hk Hfuel).
  destruct (scan_cards (header_cards_of file_content k) no_fields) as [h|] eqn:Es.
  - assert (Hparsed : ~ exists c, In c (header_cards_of file_content k) /\
                                  keyed c = true /\ card_value c = None).
    { intros Hex. apply scan_cards_None_iff with (h := no_fields) in Hex. congruence. }
    destruct (frombuffer _ _) as [data|] eqn:Ef.
    + apply frombuffer_Some in Ef. destruct Ef as [Hmod Hlen].
      pose proof (length_trim_to_naxis1 (naxis1 h) data) as Ht.
      rewrite Hlen in Ht.
      destruct (trim_to_naxis1 (naxis1 h) data) as [|x r] eqn:Etrim.
      * repeat split; try discriminate.
        intros _. right. exists h. split; [reflexivity|]. right. simpl in Ht. lia.
      * simpl in Ht. repeat split; try discriminate.
        intros [Hex|(h' & [= <-] & [Hm|Hz])]; [tauto | lia | lia].
    + apply frombuffer_None in Ef. repeat split; try discriminate.
      intros _. right. exists h. split; [reflexivity|]. now left.
  - repeat split; try discriminate.
    intros _. left. apply scan_cards_None_iff in Es. exact Es.
Qed.

Lemma read_fits_failure_cases_witness :
  read_fits_simple 10 odd_payload_file = ReturnNone.
Proof.
  apply (proj1 (@read_fits_failure_cases odd_payload_file 4 10
                  odd_payload_first_end ltac:(lia))).
  right. eexists. split; [vm_compute; reflexivity|].
  left. vm_compute. discriminate.
Defined.

(** C3, as stated, fails.  In [odd_payload_file] the [END] record is found,
    the three header values parse, and six payload bytes remain, enough for
    one 4-byte element; the reader fails all the same.  And on the empty
    stream, where [END] is never found, it does not fail: it never leaves
    the header loop. *)
Lemma failure_cases_counterexample :
  first_end_at odd_payload_file 4 /\
  scan_cards (header_cards_of odd_payload_file 4) no_fields
  = Some {| naxis := Some 1%Z; naxis1 := Some 2%Z; bitpix := Some (-32)%Z |} /\
  length (payload_of odd_payload_file 4) = 6 /\
  itemsize (dtype_of_bitpix (Some (-32)%Z)) = 4 /\
  read_fits_simple 10 odd_payload_file = ReturnNone /\
  (forall fuel, read_fits_simple fuel [] <> ReturnNone).
Proof.
  split; [exact odd_payload_first_end|].
  split; [vm_compute; reflexivity|].
  split; [vm_compute; reflexivity|].
  split; [reflexivity|].
  split; [vm_compute; reflexivity|].
  intros fuel. unfold read_fits_simple.
  rewrite (@read_header_stuck []); [discriminate| |right; now exists 0].
  intros k. unfold record_at. rewrite skipn_nil. reflexivity.
Qed.

(** *** Reading back a laid-out file *)

Lemma dtype_of_bitpix_cases :
  dtype_of_bitpix (Some (-32)%Z) = be_f4 /\
  dtype_of_bitpix (Some (-64)%Z) = be_f8 /\
  dtype_of_bitpix (Some 32%Z) = be_i4 /\
  (forall b, b <> Some (-64)%Z -> b <> Some 32%Z -> dtype_of_bitpix b = be_f4).
Proof.
  repeat split. intros b H64 H32.
  destruct b as [[|p|p]|]; try reflexivity.
  - do 6 (destruct p as [p|p|]; try reflexivity). congruence.
  - do 7 (destruct p as [p|p|]; try reflexivity). congruence.
Qed.

(** C5 (as the code has it).  A file laid out as 80-byte cards of which the
    last, and no earlier one, starts with [END], padded to the next multiple
    of 2880 bytes, followed by [M >= 1] big-endian elements of the type the
    [BITPIX] code selects (and possibly further whole elements), with
    [NAXIS1] declaring [M]: once the header loop has had its reads, the
    reader returns exactly those [M] bit patterns under that type. *)
Theorem read_fits_roundtrip (body : list bytes) (end_card padding trailing : bytes)
    (h : header_fields) (values : list Z) (m fuel : nat) :
  Forall (fun r => length r = 80) (body ++ [end_card]) ->
  Forall (fun r => startswith (decode_ascii_ignore r) "END" = false) body ->
  startswith (decode_ascii_ignore end_card) "END" = true ->
  length (concat (body ++ [end_card]) ++ padding)
  = (S (length body) * 80 + 2879) / 2880 * 2880 ->
  scan_cards (map decode_ascii_ignore (body ++ [end_card])) no_fields = Some h ->
  naxis1 h = Some (Z.of_nat m) ->
  1 <= m ->
  length values = m ->
  Forall (fun v => (0 <= v < 256 ^ Z.of_nat (itemsize (dtype_of_bitpix (bitpix h))))%Z)
         values ->
  length trailing mod itemsize (dtype_of_bitpix (bitpix h)) = 0 ->
  length body < fuel ->
  read_fits_simple fuel
    (concat (body ++ [end_card]) ++ padding
     ++ flat_map (be_bytes (itemsize (dtype_of_bitpix (bitpix h)))) values ++ trailing)
  = ReturnData (dtype_of_bitpix (bitpix h)) values.
Proof.
  intros Hsize Hbody Hend Hpad Hscan Hn1 Hm Hlen Hrange Htrail Hfuel.
  set (d := dtype_of_bitpix (bitpix h)) in *.
  set (rest := flat_map (be_bytes (itemsize d)) values ++ trailing).
  pose proof (@concat_first_end body end_card (padding ++ rest) Hsize Hbody Hend)
    as Hfirst.
  rewrite (@read_fits_simple_eq _ _ fuel Hfirst Hfuel).
  rewrite (@concat_cards body end_card (padding ++ rest) Hsize), Hscan.
  rewrite (@payload_after_header (concat (body ++ [end_card])) padding rest
             (length body) Hpad).
  destruct (@frombuffer_payload d values trailing Hrange Htrail) as (extra & Hfb).
  fold d. unfold rest. rewrite Hfb.
  rewrite Hn1, (@trim_declared Z m values extra Hm Hlen).
  destruct values as [|v values]; [simpl in Hlen; lia|reflexivity].
Qed.

(** Three 32-bit integers after a one-block header. *)
Definition three_ints_body : list bytes :=
  [ card "SIMPLE  =                    T";
    card "BITPIX  =                   32 / bits per element";
    card "NAXIS   =                    1";
    card "NAXIS1  =                    3" ].

Lemma read_fits_roundtrip_witness :
  read_fits_simple 5
    (concat (three_ints_body ++ [card "END"]) ++ blanks 2480
     ++ flat_map (be_bytes 4) [1; 256; 4294967295]%Z ++ [])
  = ReturnData be_i4 [1; 256; 4294967295]%Z.
Proof.
  apply (@read_fits_roundtrip three_ints_body (card "END") (blanks 2480) []
           {| naxis := Some 1%Z; naxis1 := Some 3%Z; bitpix := Some 32%Z |}
           [1; 256; 4294967295]%Z 3 5).
  - repeat (constructor; [vm_compute; reflexivity|]). constructor.
  - repeat (constructor; [vm_compute; reflexivity|]). constructor.
  - vm_compute; reflexivity.
  - vm_compute; reflexivity.
  - vm_compute; reflexivity.
  - reflexivity.
  - lia.
  - reflexivity.
  - repeat (constructor; [vm_compute; split; congruence|]). constructor.
  - reflexivity.
  - simpl; lia.
Defined.

(** C5, as stated, fails.  [zero_axis_file] is a header block that declares
    64-bit floats and a first axis of length 0, followed by its empty
    payload; the reader returns [None], not an array of 0 elements. *)
Lemma zero_axis_counterexample :
  first_end_at zero_axis_file 4 /\
  scan_cards (header_cards_of zero_axis_file 4) no_fields
  = Some {| naxis := Some 1%Z; naxis1 := Some 0%Z; bitpix := Some (-64)%Z |} /\
  length zero_axis_file = 2880 /\
  payload_of zero_axis_file 4 = [] /\
  read_fits_simple 10 zero_axis_file = ReturnNone /\
  read_fits_simple 10 zero_axis_file <> ReturnData be_f8 [].
Proof.
  split; [exact zero_axis_first_end|].
  split; [vm_compute; reflexivity|].
  split; [vm_compute; reflexivity|].
  split; [vm_compute; reflexivity|].
  split; [vm_compute; reflexivity|].
  vm_compute. discriminate.
Qed.

End FitsFacts.

(* ===================================================================== *)
(** ** Further properties of the engine *)
(* ===================================================================== *)

Module EngineMore.
Import Analysis AnalysisFacts.

(** *** Helpers *)

Lemma length_slice_inside {A} (l : list A) (a psize : nat) :
  a + psize <= length l -> length (slice l a (a + psize)) = psize.
Proof.
  intros H. unfold slice. rewrite length_firstn, length_skipn. lia.
Qed.

Lemma length_flat_map_le {A B} (f : A -> list B) (l : list A) (c : nat) :
  (forall x, length (f x) <= c) -> length (flat_map f l) <= c * length l.
Proof.
  intros Hf. induction l as [|x l IH]; simpl; [lia|].
  rewrite length_app. specialize (Hf x). lia.
Qed.

Lemma Qdiv_inject_ge (x y k : Z) :
  (0 < y)%Z -> (k * y <= x)%Z -> (inject_Z k <= inject_Z x / inject_Z y)%Q.
Proof.
  intros Hy H. destruct y as [|p|p]; try lia.
  unfold Qdiv, Qinv, Qmult, Qle, inject_Z; simpl. lia.
Qed.

Section More.

Context {np : Numpy}.

Lemma length_pair_match (valid_data : list pyfloat) (psize : nat) (t : pyfloat)
    (start1 separation : nat) :
  length (pair_match valid_data psize t start1 separation) <= 1.
Proof.
  unfold pair_match.
  destruct (corrcoef _ _) as [c|]; [|simpl; lia].
  destruct (negb (isnan c) && fgeb (fabs c) t); [|simpl; lia].
  destruct (angular_sep _ _); simpl; lia.
Qed.

(** X1.  Every record names two full patches inside the cleaned array: both
    starts leave room for [P] samples, the second start is the one lines
    131-135 compute from the first start and a tested separation, and the
    record carries the patch size of the call. *)
Theorem match_patches_inside (st : rng_state) (cmb_data : list pyfloat)
    (psize n_samples : nat) (min_correlation : pyfloat)
    (matches : list Match) (m : Match) :
  matches_of (analyze_cmb_correlations st cmb_data psize n_samples min_correlation)
  = Some matches ->
  In m matches ->
  location1 m + psize < length (filter isfinite cmb_data) /\
  location2 m + psize <= length (filter isfinite cmb_data) /\
  length (slice (filter isfinite cmb_data) (location1 m) (location1 m + psize)) = psize /\
  length (slice (filter isfinite cmb_data) (location2 m) (location2 m + psize)) = psize /\
  In (separation_pixels m) (test_separations (length (filter isfinite cmb_data))) /\
  location2 m = second_start (length (filter isfinite cmb_data)) psize
                  (location1 m) (separation_pixels m) /\
  patch_size m = psize.
Proof.
  intros Hrun Hin.
  pose proof (@analyze_In np st cmb_data psize n_samples min_correlation
                matches m Hrun Hin) as Hm.
  destruct Hm as (Hg & start1 & separation & Hs & Hsep & Hpm).
  pose proof (pair_match_inv _ _ _ _ _ _ Hpm) as (L1 & L2 & L3 & L4 & _).
  apply sample_starts_lt in Hs.
  assert (Hlt : separation < length (filter isfinite cmb_data))
    by (apply test_separations_lt; [lia | exact Hsep]).
  pose proof (second_start_fits _ _ Hs Hlt) as Hfit.
  rewrite L1, L2, L3, L4.
  repeat split; try assumption; try lia.
  - apply length_slice_inside. lia.
  - apply length_slice_inside. exact Hfit.
Qed.

(** X2.  Every record's correlation is the coefficient [np.corrcoef]
    returned for the two patches at the record's locations; it is not NaN
    and its magnitude reaches the threshold of the call. *)
Theorem match_correlation_sound (st : rng_state) (cmb_data : list pyfloat)
    (psize n_samples : nat) (min_correlation : pyfloat)
    (matches : list Match) (m : Match) :
  matches_of (analyze_cmb_correlations st cmb_data psize n_samples min_correlation)
  = Some matches ->
  In m matches ->
  corrcoef (slice (filter isfinite cmb_data) (location1 m) (location1 m + psize))
           (slice (filter isfinite cmb_data) (location2 m) (location2 m + psize))
  = Some (correlation m) /\
  isnan (correlation m) = false /\
  fgeb (fabs (correlation m)) min_correlation = true.
Proof.
  intros Hrun Hin.
  pose proof (@analyze_In np st cmb_data psize n_samples min_correlation
                matches m Hrun Hin) as Hm.
  destruct Hm as (_ & start1 & separation & _ & _ & Hpm).
  pose proof (pair_match_inv _ _ _ _ _ _ Hpm)
    as (L1 & _ & _ & _ & Hn & Hge & Hc & _).
  rewrite L1. auto.
Qed.

(** X3.  Every record's angular separation lies between 0 and 270 degrees
    (so below 360), and so does the binary64 value of
    [360.0 * separation / N] that the program stores for the record, for an
    array of fewer than [2^44] samples (there [360 * separation] and [N]
    are binary64 values and only the quotient is rounded). *)
Theorem match_angle_bounds (st : rng_state) (cmb_data : list pyfloat)
    (psize n_samples : nat) (min_correlation : pyfloat)
    (matches : list Match) (m : Match) :
  matches_of (analyze_cmb_correlations st cmb_data psize n_samples min_correlation)
  = Some matches ->
  In m matches ->
  (exists a : Q,
     separation_degrees m = FFin a /\ (0 <= a)%Q /\ (a <= 270)%Q) /\
  ((Z.of_nat (length (filter isfinite cmb_data)) < 2 ^ 44)%Z ->
   exists b : Q,
     Binary64.angle64 (separation_pixels m) (length (filter isfinite cmb_data))
     = FFin b /\ (0 <= b)%Q /\ (b <= 270)%Q).
Proof.
  intros Hrun Hin.
  pose proof (@analyze_In np st cmb_data psize n_samples min_correlation
                matches m Hrun Hin) as Hm.
  destruct Hm as (Hg & start1 & separation & Hs & Hsep & Hpm).
  pose proof (pair_match_inv _ _ _ _ _ _ Hpm)
    as (_ & _ & L3 & _ & _ & _ & _ & Ha).
  apply sample_starts_lt in Hs.
  set (n := length (filter isfinite cmb_data)) in *.
  assert (Hb : 4 * separation <= 3 * n).
  { destruct Hsep as [<-|[<-|[<-|[]]]].
    - pose proof (Nat.div_mod_eq n 4). lia.
    - pose proof (Nat.div_mod_eq n 2). lia.
    - pose proof (Nat.div_mod_eq (3 * n) 4). lia. }
  split.
  - rewrite angular_sep_pos in Ha by lia.
    apply (f_equal (fun o => match o with Some x => x | None => FNaN end)) in Ha.
    cbv beta iota in Ha.
    eexists. split; [symmetry; exact Ha|].
    assert (Hz : (0 < Z.of_nat n)%Z) by lia.
    split.
    + change 0%Q with (inject_Z 0). apply Qdiv_inject_ge; [exact Hz | lia].
    + change 270%Q with (inject_Z 270). apply Qdiv_inject_le; [exact Hz | lia].
  - intros Hsmall. rewrite L3.
    apply Binary64.angle64_bounds; [lia | exact Hsmall | exact Hb].
Qed.

(** X4.  A run reports at most three records per sampled start, hence at
    most [3 * min(n_samples, N - P)] records. *)
Theorem match_count_bound (st : rng_state) (cmb_data : list pyfloat)
    (psize n_samples : nat) (min_correlation : pyfloat) (matches : list Match) :
  matches_of (analyze_cmb_correlations st cmb_data psize n_samples min_correlation)
  = Some matches ->
  length matches
  <= 3 * Nat.min n_samples (length (filter isfinite cmb_data) - psize).
Proof.
  unfold matches_of, analyze_cmb_correlations.
  set (valid_data := filter isfinite cmb_data).
  destruct (_ <? _).
  { cbn [option_map fst]. intros Heq.
    apply (f_equal (fun o => match o with Some l => l | None => [] end)) in Heq.
    cbv beta iota in Heq. subst matches. simpl. lia. }
  destruct (_ =? 0); [discriminate|].
  pose proof (sample_starts_spec (length valid_data) psize n_samples)
    as (_ & Hlen & _).
  destruct (sample_starts _ _ _) as [starts st'] eqn:Es. cbn [option_map fst] in *.
  intros Heq.
  apply (f_equal (fun o => match o with Some l => l | None => [] end)) in Heq.
  cbv beta iota in Heq. subst matches.
  rewrite <- Hlen. apply length_flat_map_le. intros start1.
  pose proof (@length_flat_map_le _ _
                (pair_match valid_data psize min_correlation start1)
                (test_separations (length valid_data)) 1
                (length_pair_match valid_data psize min_correlation start1)) as H3.
  change (length (test_separations (length valid_data))) with 3 in H3. lia.
Qed.

(** X5.  No record pairs a patch with itself: the two locations of a record
    differ. *)
Theorem no_self_pairing (st : rng_state) (cmb_data : list pyfloat)
    (psize n_samples : nat) (min_correlation : pyfloat)
    (matches : list Match) (m : Match) :
  matches_of (analyze_cmb_correlations st cmb_data psize n_samples min_correlation)
  = Some matches ->
  In m matches ->
  location1 m <> location2 m.
Proof.
  intros Hrun Hin.
  pose proof (@analyze_In np st cmb_data psize n_samples min_correlation
                matches m Hrun Hin) as Hm.
  destruct Hm as (Hg & start1 & separation & Hs & Hsep & Hpm).
  pose proof (pair_match_inv _ _ _ _ _ _ Hpm) as (L1 & L2 & _).
  apply sample_starts_lt in Hs.
  set (n := length (filter isfinite cmb_data)) in *.
  rewrite L1, L2.
  destruct (Nat.le_gt_cases 4 n) as [H4|H4].
  - assert (Hlt : separation < n) by (apply test_separations_lt; [lia | exact Hsep]).
    assert (Hpos : 1 <= separation).
    { destruct Hsep as [<-|[<-|[<-|[]]]].
      - pose proof (Nat.div_mod_eq n 4).
        pose proof (Nat.mod_upper_bound n 4 ltac:(lia)). lia.
      - pose proof (Nat.div_mod_eq n 2).
        pose proof (Nat.mod_upper_bound n 2 ltac:(lia)). lia.
      - pose proof (Nat.div_mod_eq (3 * n) 4).
        pose proof (Nat.mod_upper_bound (3 * n) 4 ltac:(lia)). lia. }
    destruct (Nat.le_gt_cases n (start1 + separation)) as [Hge|Hin'].
    + rewrite second_start_wrapped by assumption. lia.
    + rewrite second_start_inside by lia. lia.
  - exfalso.
    rewrite (pair_match_short (filter isfinite cmb_data)
               min_correlation start1 separation) in Hpm; [exact Hpm|].
    lia.
Qed.

(** X6.  The analysis raises in one case only: a patch size of zero on an
    array without any finite sample.  In every other case it returns a match
    list. *)
Theorem analysis_raises_iff (st : rng_state) (cmb_data : list pyfloat)
    (psize n_samples : nat) (min_correlation : pyfloat) :
  analyze_cmb_correlations st cmb_data psize n_samples min_correlation = None <->
  psize = 0 /\ filter isfinite cmb_data = [].
Proof.
  unfold analyze_cmb_correlations.
  destruct (_ <? _) eqn:Eg.
  - apply Nat.ltb_lt in Eg. split; [discriminate|]. intros [-> _]. lia.
  - apply Nat.ltb_ge in Eg. destruct (_ =? 0) eqn:E0.
    + apply Nat.eqb_eq in E0. split; [intros _|reflexivity].
      split; [lia|]. now apply length_zero_iff_nil.
    + apply Nat.eqb_neq in E0.
      destruct (sample_starts _ _ _) as [starts st'].
      split; [discriminate|]. intros [_ Hnil]. rewrite Hnil in E0. now simpl in E0.
Qed.

End More.

(** *** Concrete runs *)

Ltac pick := repeat (first [left; reflexivity | right]).

(** The samples [1.0 .. 8.0]. *)
Definition data8 : list pyfloat :=
  map (fun z => of_int z) [1; 2; 3; 4; 5; 6; 7; 8]%Z.

(** The run on them with patch size 2, six samples, threshold 0.1. *)
Definition run8 : option (list Match) :=
  matches_of (analyze_cmb_correlations (np := Toy.toy_numpy) 0 data8 2 6
                (FFin (1 # 10))).

Definition run8_matches : list Match :=
  Eval vm_compute in match run8 with Some ms => ms | None => [] end.

(** Its record for start 5 and the half-way separation. *)
Definition run8_record : Match :=
  {| location1 := 5; location2 := 1; correlation := FFin 1;
     separation_pixels := 4; separation_degrees := FFin (1440 # 8);
     patch_size := 2 |}.

Lemma run8_returns : run8 = Some run8_matches.
Proof. vm_compute. reflexivity. Qed.

Lemma run8_record_in : In run8_record run8_matches.
Proof. vm_compute. pick. Qed.

Lemma match_patches_inside_witness :
  5 + 2 < 8 /\ 1 + 2 <= 8 /\ second_start 8 2 5 4 = 1.
Proof.
  destruct (@match_patches_inside Toy.toy_numpy _ _ _ _ _ _ _
              run8_returns run8_record_in) as (H1 & H2 & _ & _ & _ & H6 & _).
  split; [exact H1|]. split; [exact H2 | symmetry; exact H6].
Defined.

Lemma match_correlation_sound_witness :
  isnan (correlation run8_record) = false /\
  fgeb (fabs (correlation run8_record)) (FFin (1 # 10)) = true.
Proof.
  destruct (@match_correlation_sound Toy.toy_numpy _ _ _ _ _ _ _
              run8_returns run8_record_in) as (_ & H2 & H3).
  split; [exact H2 | exact H3].
Defined.

Lemma match_angle_bounds_witness :
  (exists a : Q,
     separation_degrees run8_record = FFin a /\ (0 <= a)%Q /\ (a <= 270)%Q) /\
  (exists b : Q, Binary64.angle64 4 8 = FFin b /\ (0 <= b)%Q /\ (b <= 270)%Q).
Proof.
  destruct (@match_angle_bounds Toy.toy_numpy _ _ _ _ _ _ _
              run8_returns run8_record_in) as (Ha & Hb).
  split; [exact Ha|]. apply Hb. vm_compute. reflexivity.
Defined.

(** Seven samples: the first angle is [360 / 7] in the record of the model;
    the program stores its binary64 neighbour. *)
Example angle_of_seven :
  angular_sep 1 7 = Some (FFin (360 # 7)) /\
  Binary64.angle64 1 7 = FFin (3618963986279863 # 70368744177664).
Proof. split; vm_compute; reflexivity. Qed.

Lemma match_count_bound_witness : length run8_matches <= 3 * Nat.min 6 (8 - 2).
Proof.
  exact (@match_count_bound Toy.toy_numpy _ _ _ _ _ _ run8_returns).
Defined.

Lemma no_self_pairing_witness : location1 run8_record <> location2 run8_record.
Proof.
  exact (@no_self_pairing Toy.toy_numpy _ _ _ _ _ _ _ run8_returns run8_record_in).
Defined.

End EngineMore.

(* ===================================================================== *)
(** ** Further properties of the report and of the significance reader *)
(* ===================================================================== *)

Module ReportMore.
Import Analysis AnalysisFacts Discovery.

(** *** Float order *)

Lemma fltb_fleb_lt (x y z : pyfloat) :
  fltb x y = true -> fleb y z = true -> fltb x z = true.
Proof.
  destruct x as [|[]|a], y as [|[]|b], z as [|[]|c]; simpl; try congruence.
  intros H1 H2. apply negb_true_iff in H1. apply Qle_bool_false_lt in H1.
  apply Qle_bool_iff in H2. apply negb_true_iff.
  destruct (Qle_bool c a) eqn:E; [|reflexivity].
  apply Qle_bool_iff in E. exfalso.
  apply (Qlt_irrefl a). eapply Qlt_le_trans; [exact H1|].
  eapply Qle_trans; eassumption.
Qed.

Lemma fleb_not_fltb (x y : pyfloat) : fleb y x = true -> fltb x y = false.
Proof.
  destruct x as [|[]|a], y as [|[]|b]; simpl; try congruence.
  intros H. now rewrite H.
Qed.

(** *** Definitions read off [main] *)

(** [abs(m['correlation']) > 0.2] (line 290). *)
Definition strong (m : Match) : bool := fltb float_0_2 (fabs (correlation m)).

(** The larger of two floats as [np.max] sees them: NaN wins. *)
Definition fmax (a b : pyfloat) : pyfloat :=
  if isnan a then a else if isnan b then b else if fltb a b then b else a.

(** [np.max(values)]; [None] is the [ValueError] on an empty array. *)
Definition np_max (values : list pyfloat) : option pyfloat :=
  match values with
  | [] => None
  | x :: rest => Some (fold_left fmax rest x)
  end.

(** [np.max(np.abs(correlations))] of lines 289, 296 and 321, taken over
    the sorted [matches]. *)
Definition max_correlation (sorted : list Match) : option pyfloat :=
  np_max (map fabs (map correlation sorted)).

(** *** Ranked lists *)

Lemma In_firstn_In {A} (k : nat) (l : list A) (x : A) :
  In x (firstn k l) -> In x l.
Proof.
  intros H. rewrite <- (firstn_skipn k l). apply in_or_app. now left.
Qed.

Lemma sorted_filter_prefix (p : Match -> bool) (l : list Match) :
  (forall a b, ranks_before a b -> p b = true -> p a = true) ->
  StronglySorted ranks_before l ->
  filter p l = firstn (length (filter p l)) l.
Proof.
  intros Hmono Hs. induction Hs as [|x l Hs IH Hx]; [reflexivity|].
  simpl. destruct (p x) eqn:Ex.
  - simpl. f_equal. exact IH.
  - assert (Hnone : filter p l = []).
    { rewrite Forall_forall in Hx.
      destruct (filter p l) as [|b r] eqn:Ef; [reflexivity|].
      assert (Hb : In b (filter p l)) by (rewrite Ef; now left).
      apply filter_In in Hb. destruct Hb as [Hin Hpb].
      rewrite (Hmono x b (Hx b Hin) Hpb) in Ex. discriminate. }
    rewrite Hnone. reflexivity.
Qed.

Lemma strong_monotone (a b : Match) :
  ranks_before a b -> strong b = true -> strong a = true.
Proof.
  unfold ranks_before, fgeb, strong. intros Hab Hb.
  eapply fltb_fleb_lt; eassumption.
Qed.

Lemma fold_fmax_head (x : pyfloat) (rest : list pyfloat) :
  isnan x = false ->
  Forall (fun y => isnan y = false /\ fleb y x = true) rest ->
  fold_left fmax rest x = x.
Proof.
  intros Hx Hall. induction Hall as [|y rest [Hy Hle] Hall IH]; [reflexivity|].
  simpl. unfold fmax at 2. rewrite Hx, Hy, (fleb_not_fltb _ _ Hle). exact IH.
Qed.

Section Report.

Context {np : Numpy}.

(** X8.  In the report the strong matches are the first entries of the
    ranking: filtering the sorted list by [|correlation| > 0.2] gives its
    prefix of length [strong_matches]; when there are twenty or more, every
    entry of [top_matches] is strong. *)
Theorem strong_matches_lead (st : rng_state) (cmb_data : list pyfloat)
    (psize n_samples : nat) (min_correlation : pyfloat)
    (matches : list Match) (results : Results) :
  matches_of (analyze_cmb_correlations st cmb_data psize n_samples min_correlation)
  = Some matches ->
  report (length cmb_data) matches = Some results ->
  filter strong (sort_matches matches)
  = firstn (strong_matches results) (sort_matches matches) /\
  strong_matches results <= matches_found results /\
  (20 <= strong_matches results -> Forall (fun m => strong m = true) (top_matches results)).
Proof.
  intros Hrun Hrep.
  pose proof (sort_matches_sorted (analyze_not_nan _ _ _ _ _ Hrun)) as Hsorted.
  pose proof (sorted_filter_prefix strong strong_monotone Hsorted) as Hpre.
  destruct matches as [|m0 ms]; [discriminate|].
  unfold report in Hrep.
  apply (f_equal (fun o => match o with Some r => r | None => results end)) in Hrep.
  cbv beta iota in Hrep. subst results. cbn [strong_matches matches_found top_matches].
  split; [exact Hpre|]. split; [apply filter_length_le|].
  intros H20. apply Forall_forall. intros m Hm.
  change (20 <= length (filter strong (sort_matches (m0 :: ms)))) in H20.
  assert (Hin : In m (filter strong (sort_matches (m0 :: ms)))).
  { rewrite Hpre.
    replace (firstn 20 (sort_matches (m0 :: ms)))
      with (firstn 20 (firstn (length (filter strong (sort_matches (m0 :: ms))))
                              (sort_matches (m0 :: ms)))) in Hm
      by (rewrite firstn_firstn, Nat.min_l by exact H20; reflexivity).
    eapply In_firstn_In. exact Hm. }
  apply filter_In in Hin. tauto.
Qed.

(** X9.  The maximum correlation that [main] prints and writes is the
    magnitude of the first ranked match. *)
Theorem max_correlation_is_top (st : rng_state) (cmb_data : list pyfloat)
    (psize n_samples : nat) (min_correlation : pyfloat)
    (matches : list Match) (results : Results) :
  matches_of (analyze_cmb_correlations st cmb_data psize n_samples min_correlation)
  = Some matches ->
  report (length cmb_data) matches = Some results ->
  exists top,
    hd_error (top_matches results) = Some top /\
    max_correlation (sort_matches matches) = Some (fabs (correlation top)) /\
    Forall (fun m => fleb (fabs (correlation m)) (fabs (correlation top)) = true) matches.
Proof.
  intros Hrun Hrep.
  pose proof (analyze_not_nan _ _ _ _ _ Hrun) as Hnn.
  pose proof (sort_matches_sorted Hnn) as Hsorted.
  pose proof (sort_matches_perm matches) as Hperm.
  assert (Hnn' : Forall not_nan (sort_matches matches))
    by (apply (Permutation_Forall (Permutation_sym Hperm)); exact Hnn).
  destruct matches as [|m0 ms]; [discriminate|].
  unfold report in Hrep.
  apply (f_equal (fun o => match o with Some r => r | None => results end)) in Hrep.
  cbv beta iota in Hrep. subst results. cbn [top_matches].
  destruct (sort_matches (m0 :: ms)) as [|top rest] eqn:Es.
  { apply Permutation_length in Hperm. simpl in Hperm. discriminate. }
  inversion Hsorted as [|? ? Hrest Htop]; subst.
  inversion Hnn' as [|? ? Hntop Hnrest]; subst.
  exists top. split; [reflexivity|].
  assert (Hdom : Forall (fun m => fleb (fabs (correlation m)) (fabs (correlation top)) = true)
                        (top :: rest)).
  { constructor.
    - unfold not_nan in Hntop. destruct (correlation top) as [|[]|q]; simpl in *;
        try discriminate; try reflexivity. apply Qle_bool_iff. apply Qle_refl.
    - eapply Forall_impl; [|exact Htop]. intros m Hm. exact Hm. }
  split.
  - unfold max_correlation. cbn [map np_max]. f_equal.
    apply fold_fmax_head; [rewrite fabs_isnan; exact Hntop|].
    rewrite Forall_forall in *. intros y Hy.
    apply in_map_iff in Hy. destruct Hy as (c & <- & Hc).
    apply in_map_iff in Hc. destruct Hc as (m & <- & Hm).
    split; [rewrite fabs_isnan; apply Hnrest; exact Hm|].
    apply Htop. exact Hm.
  - apply (Permutation_Forall Hperm). exact Hdom.
Qed.

End Report.

(** *** The angular bins of [statistical_analysis] *)

Definition in_bin (lo hi : Z) (s : pyfloat) : bool :=
  fleb (of_int lo) s && fleb s (of_int hi).

Lemma count_between_filter (lo hi : Z) (l : list pyfloat) :
  count_between lo hi l = length (filter (in_bin lo hi) l).
Proof. reflexivity. Qed.

Lemma bins_disjoint (lo1 hi1 lo2 hi2 : Z) (s : pyfloat) :
  (hi1 < lo2)%Z -> in_bin lo1 hi1 s = true -> in_bin lo2 hi2 s = false.
Proof.
  unfold in_bin. intros Hlt H1. apply andb_true_iff in H1. destruct H1 as [_ Hhi].
  destruct (fleb (of_int lo2) s) eqn:E; [|reflexivity]. exfalso.
  pose proof (fleb_trans _ _ _ E Hhi) as H. unfold of_int in H. simpl in H.
  apply Qle_bool_iff in H. rewrite <- Zle_Qle in H. lia.
Qed.

Lemma three_counts_le (l : list pyfloat) :
  count_between 85 95 l + count_between 175 185 l + count_between 265 275 l
  <= length l.
Proof.
  rewrite !count_between_filter.
  induction l as [|s l IH]; simpl; [lia|].
  destruct (in_bin 85 95 s) eqn:E1.
  - rewrite (@bins_disjoint 85 95 175 185 s ltac:(lia) E1).
    rewrite (@bins_disjoint 85 95 265 275 s ltac:(lia) E1). simpl. lia.
  - destruct (in_bin 175 185 s) eqn:E2.
    + rewrite (@bins_disjoint 175 185 265 275 s ltac:(lia) E2). simpl. lia.
    + destruct (in_bin 265 275 s); simpl; lia.
Qed.

Lemma three_counts_eq (l : list pyfloat) :
  Forall (fun s => in_bin 85 95 s || in_bin 175 185 s || in_bin 265 275 s = true) l ->
  count_between 85 95 l + count_between 175 185 l + count_between 265 275 l
  = length l.
Proof.
  rewrite !count_between_filter.
  induction 1 as [|s l Hs Hall IH]; simpl; [reflexivity|].
  destruct (in_bin 85 95 s) eqn:E1.
  - rewrite (@bins_disjoint 85 95 175 185 s ltac:(lia) E1).
    rewrite (@bins_disjoint 85 95 265 275 s ltac:(lia) E1). simpl. lia.
  - destruct (in_bin 175 185 s) eqn:E2.
    + rewrite (@bins_disjoint 175 185 265 275 s ltac:(lia) E2). simpl. lia.
    + simpl in Hs. rewrite Hs. simpl. lia.
Qed.

Lemma Qle_bool_int_quot (k x y : Z) :
  (0 < y)%Z ->
  Qle_bool (inject_Z k) (inject_Z x / inject_Z y) = (k * y <=? x)%Z.
Proof.
  intros Hy. destruct y as [|p|p]; try lia.
  unfold Qle_bool, Qdiv, Qinv, Qmult, inject_Z; simpl.
  destruct (Z.leb_spec (k * Z.pos p) (x * 1 * 1)), (Z.leb_spec (k * Z.pos p) x);
    try reflexivity; lia.
Qed.

Lemma Qle_bool_quot_int (k x y : Z) :
  (0 < y)%Z ->
  Qle_bool (inject_Z x / inject_Z y) (inject_Z k) = (x <=? k * y)%Z.
Proof.
  intros Hy. destruct y as [|p|p]; try lia.
  unfold Qle_bool, Qdiv, Qinv, Qmult, inject_Z; simpl.
  destruct (Z.leb_spec (x * 1 * 1) (k * Z.pos p)), (Z.leb_spec x (k * Z.pos p));
    try reflexivity; lia.
Qed.

(** For an array of 54 samples or more, the angle of each tested separation
    falls in one of the three bins. *)
Lemma tested_angle_in_bin (n separation : nat) (angle : pyfloat) :
  54 <= n -> In separation (test_separations n) ->
  angular_sep separation n = Some angle ->
  in_bin 85 95 angle || in_bin 175 185 angle || in_bin 265 275 angle = true.
Proof.
  intros Hn Hsep Ha. rewrite angular_sep_pos in Ha by lia.
  apply (f_equal (fun o => match o with Some x => x | None => FNaN end)) in Ha.
  cbv beta iota in Ha. subst angle.
  assert (Hz : (0 < Z.of_nat n)%Z) by lia.
  unfold in_bin, of_int, fleb.
  rewrite !Qle_bool_int_quot, !Qle_bool_quot_int by exact Hz.
  pose proof (Nat.div_mod_eq n 4) as D4.
  pose proof (Nat.mod_upper_bound n 4 ltac:(lia)) as B4.
  pose proof (Nat.div_mod_eq n 2) as D2.
  pose proof (Nat.mod_upper_bound n 2 ltac:(lia)) as B2.
  pose proof (Nat.div_mod_eq (3 * n) 4) as D3.
  pose proof (Nat.mod_upper_bound (3 * n) 4 ltac:(lia)) as B3.
  destruct Hsep as [<-|[<-|[<-|[]]]].
  - replace (85 * Z.of_nat n <=? 360 * Z.of_nat (n / 4))%Z with true
      by (symmetry; apply Z.leb_le; lia).
    replace (360 * Z.of_nat (n / 4) <=? 95 * Z.of_nat n)%Z with true
      by (symmetry; apply Z.leb_le; lia).
    reflexivity.
  - replace (175 * Z.of_nat n <=? 360 * Z.of_nat (n / 2))%Z with true
      by (symmetry; apply Z.leb_le; lia).
    replace (360 * Z.of_nat (n / 2) <=? 185 * Z.of_nat n)%Z with true
      by (symmetry; apply Z.leb_le; lia).
    change (true && true) with true. rewrite orb_true_r. reflexivity.
  - replace (265 * Z.of_nat n <=? 360 * Z.of_nat (3 * n / 4))%Z with true
      by (symmetry; apply Z.leb_le; lia).
    replace (360 * Z.of_nat (3 * n / 4) <=? 275 * Z.of_nat n)%Z with true
      by (symmetry; apply Z.leb_le; lia).
    change (true && true) with true. apply orb_true_r.
Qed.

Section Bins.

Context {np : Numpy}.
Variable ttest_1samp : list pyfloat -> pyfloat -> pyfloat * pyfloat.

(** X10.  On the report of an analysis of 54 finite samples or more, every
    match handed to the significance reader falls in one of its three
    "predicted" bins: the bin counts add up to the number of top matches.
    (The engine only ever pairs patches at those three separations.) *)
Theorem top_matches_all_predicted (st : rng_state) (cmb_data : list pyfloat)
    (psize n_samples : nat) (min_correlation : pyfloat) (s : Stats) :
  54 <= length (filter isfinite cmb_data) ->
  discovery_pipeline ttest_1samp st cmb_data psize n_samples min_correlation = Some s ->
  sep_90 s + sep_180 s + sep_270 s = length (separations s) /\
  length (separations s) = length (correlations s).
Proof.
  intros Hn Hpipe. unfold discovery_pipeline, analyze_and_report in Hpipe.
  destruct (matches_of _) as [matches|] eqn:Hrun; [|discriminate].
  destruct (report _ _) as [results|] eqn:Hrep; [|discriminate].
  assert (Htop : forall m, In m (top_matches results) -> In m matches).
  { destruct matches as [|m0 ms]; [discriminate|].
    unfold report in Hrep.
    apply (f_equal (fun o => match o with Some r => r | None => results end)) in Hrep.
    cbv beta iota in Hrep. subst results. cbn [top_matches]. intros m Hm.
    apply In_firstn_In in Hm.
    eapply Permutation_in; [apply sort_matches_perm | exact Hm]. }
  unfold statistical_analysis in Hpipe.
  destruct (data_points results =? 0); [discriminate|].
  destruct (ttest_1samp _ _) as [t p].
  apply (f_equal (fun o => match o with Some x => x | None => s end)) in Hpipe.
  cbv beta iota in Hpipe. subst s. cbn [sep_90 sep_180 sep_270 separations correlations].
  split; [|now rewrite !length_map].
  apply three_counts_eq. apply Forall_forall. intros a Ha.
  apply in_map_iff in Ha. destruct Ha as (m & <- & Hm).
  pose proof (@analyze_In np st cmb_data psize n_samples min_correlation
                matches m Hrun (Htop m Hm)) as Hin.
  destruct Hin as (_ & start1 & separation & _ & Hsep & Hpm).
  pose proof (pair_match_inv _ _ _ _ _ _ Hpm) as (_ & _ & _ & _ & _ & _ & _ & Hang).
  exact (tested_angle_in_bin Hn Hsep Hang).
Qed.

End Bins.

(** X11.  For any report, the three bins of the significance reader do not
    overlap: their counts add up to at most the number of top matches, and
    the two lists it returns have that length. *)
Theorem bin_counts_bounded (ttest_1samp : list pyfloat -> pyfloat -> pyfloat * pyfloat)
    (results : Results) (s : Stats) :
  statistical_analysis ttest_1samp results = Some s ->
  sep_90 s + sep_180 s + sep_270 s <= length (top_matches results) /\
  length (separations s) = length (top_matches results) /\
  length (correlations s) = length (top_matches results).
Proof.
  unfold statistical_analysis.
  destruct (data_points results =? 0); [discriminate|].
  destruct (ttest_1samp _ _) as [t p]. intros Heq.
  apply (f_equal (fun o => match o with Some x => x | None => s end)) in Heq.
  cbv beta iota in Heq. subst s. cbn [sep_90 sep_180 sep_270 separations correlations].
  rewrite !length_map. split; [|split; reflexivity].
  rewrite <- (length_map separation_degrees (top_matches results)).
  apply three_counts_le.
Qed.

(** *** Concrete runs *)

(** The report of the run on [data8]. *)
Definition report8 : Results :=
  Eval vm_compute in
    match report (length EngineMore.data8) EngineMore.run8_matches with
    | Some r => r
    | None => {| data_points := 0; matches_found := 0; strong_matches := 0;
                 top_matches := [] |}
    end.

Lemma report8_written :
  report (length EngineMore.data8) EngineMore.run8_matches = Some report8.
Proof. vm_compute. reflexivity. Qed.

Lemma strong_matches_lead_witness :
  strong_matches report8 = 18 /\
  filter strong (sort_matches EngineMore.run8_matches)
  = firstn 18 (sort_matches EngineMore.run8_matches).
Proof.
  destruct (@strong_matches_lead Toy.toy_numpy _ _ _ _ _ _ _
              EngineMore.run8_returns report8_written) as (H1 & _).
  split; [reflexivity | exact H1].
Defined.

Lemma max_correlation_is_top_witness :
  exists top,
    hd_error (top_matches report8) = Some top /\
    max_correlation (sort_matches EngineMore.run8_matches)
    = Some (fabs (correlation top)).
Proof.
  destruct (@max_correlation_is_top Toy.toy_numpy _ _ _ _ _ _ _
              EngineMore.run8_returns report8_written) as (top & H1 & H2 & _).
  exists top. split; assumption.
Defined.

(** The samples [1.0 .. 54.0]. *)
Definition data54 : list pyfloat :=
  map (fun i => of_int (Z.of_nat i)) (seq 1 54).

(** The significance reader on the report of the run on [data54] with patch
    size 2, three samples, threshold 0.1. *)
Definition stats54 : Stats :=
  Eval vm_compute in
    match discovery_pipeline (np := Toy.toy_numpy) count_ttest 0 data54 2 3
            (FFin (1 # 10)) with
    | Some s => s
    | None => {| correlations := []; separations := []; sep_90 := 0; sep_180 := 0;
                 sep_270 := 0; p_value := FNaN; t_stat := FNaN |}
    end.

Lemma top_matches_all_predicted_witness :
  sep_90 stats54 + sep_180 stats54 + sep_270 stats54 = length (separations stats54) /\
  length (separations stats54) = 9.
Proof.
  destruct (@top_matches_all_predicted Toy.toy_numpy count_ttest 0 data54 2 3
              (FFin (1 # 10)) stats54) as (H1 & _).
  - vm_compute. apply le_n.
  - vm_compute. reflexivity.
  - split; [exact H1 | reflexivity].
Defined.

(** With 53 samples the three-quarter separation is 39 pixels and its angle,
    [360 * 39 / 53], stays below 265 degrees: outside every bin. *)
Example angle_53_outside :
  In 39 (test_separations 53) /\
  exists angle,
    angular_sep 39 53 = Some angle /\
    in_bin 85 95 angle || in_bin 175 185 angle || in_bin 265 275 angle = false.
Proof.
  split; [vm_compute; auto|]. eexists. split; [reflexivity|]. vm_compute. reflexivity.
Qed.

Lemma bin_counts_bounded_witness :
  sep_90 stats54 + sep_180 stats54 + sep_270 stats54 <= 9.
Proof.
  destruct (@bin_counts_bounded count_ttest
              {| data_points := 54; matches_found := 9; strong_matches := 9;
                 top_matches :=
                   map (fun a => {| location1 := 0; location2 := 0;
                                    correlation := FFin 1; separation_pixels := 0;
                                    separation_degrees := a; patch_size := 2 |})
                       (separations stats54) |}
              {| correlations := map (fun _ => FFin 1) (separations stats54);
                 separations := separations stats54;
                 sep_90 := sep_90 stats54; sep_180 := sep_180 stats54;
                 sep_270 := sep_270 stats54;
                 p_value := FNaN; t_stat := of_int 9 |}) as (H1 & _).
  - vm_compute. reflexivity.
  - exact H1.
Defined.

End ReportMore.

(* ===================================================================== *)
(** ** The verdict lines and the overview plot *)
(* ===================================================================== *)

Module Presentation.

(** *** The significance verdict ([analyze_discovery.py], lines 61-67) *)

(** The float literals [0.001] and [0.05] (their binary64 values). *)
Definition float_0_001 : pyfloat := FFin (1152921504606847 # 1152921504606846976).
Definition float_0_05 : pyfloat := FFin (3602879701896397 # 72057594037927936).

Inductive verdict : Type := HighlySignificant | Significant | NotSignificant.

(** [if p_value < 0.001: ... elif p_value < 0.05: ... else: ...]; the same
    test is repeated in lines 174 and 257. *)
Definition significance (p_value : pyfloat) : verdict :=
  if fltb p_value float_0_001 then HighlySignificant
  else if fltb p_value float_0_05 then Significant
  else NotSignificant.

Lemma fleb_fltb_lt (x y z : pyfloat) :
  fleb x y = true -> fltb y z = true -> fltb x z = true.
Proof.
  destruct x as [|[]|a], y as [|[]|b], z as [|[]|c]; simpl; try congruence.
  intros H1 H2. apply Qle_bool_iff in H1.
  apply negb_true_iff in H2. apply Qle_bool_false_lt in H2.
  apply negb_true_iff.
  destruct (Qle_bool c a) eqn:E; [|reflexivity].
  apply Qle_bool_iff in E. exfalso.
  apply (Qlt_irrefl b). eapply Qlt_le_trans; [exact H2|].
  eapply Qle_trans; eassumption.
Qed.

(** X12.  The verdict never weakens when the p-value drops: if [p <= q] and
    [q] is called highly significant then so is [p], and if [q] is called
    significant or better then so is [p].  A NaN p-value is called not
    significant. *)
Theorem significance_monotone (p q : pyfloat) :
  fleb p q = true ->
  (significance q = HighlySignificant -> significance p = HighlySignificant) /\
  (significance q <> NotSignificant -> significance p <> NotSignificant) /\
  significance FNaN = NotSignificant.
Proof.
  intros Hpq. unfold significance. repeat split.
  - destruct (fltb q float_0_001) eqn:Eq.
    + intros _. now rewrite (fleb_fltb_lt _ _ _ Hpq Eq).
    + destruct (fltb q float_0_05); discriminate.
  - destruct (fltb q float_0_001) eqn:Eq1.
    + intros _. rewrite (fleb_fltb_lt _ _ _ Hpq Eq1). discriminate.
    + destruct (fltb q float_0_05) eqn:Eq5; [|congruence].
      intros _. rewrite (fleb_fltb_lt _ _ _ Hpq Eq5).
      destruct (fltb p float_0_001); discriminate.
Qed.

Lemma significance_monotone_witness :
  significance (FFin (1 # 100)) = Significant /\
  significance (FFin (1 # 10000)) <> NotSignificant.
Proof.
  destruct (@significance_monotone (FFin (1 # 10000)) (FFin (1 # 100)) eq_refl)
    as (_ & H & _).
  split; [reflexivity|]. apply H. discriminate.
Defined.

(** *** The overview plot ([plot_cmb_analysis], line 171) *)

(** [l[::step]] for [step >= 1]; [fuel] bounds the number of elements
    taken. *)
Fixpoint stride_from {A} (fuel step : nat) (l : list A) : list A :=
  match fuel with
  | O => []
  | S fuel' =>
      match l with
      | [] => []
      | x :: rest => x :: stride_from fuel' step (skipn (step - 1) rest)
      end
  end.

Definition every_nth {A} (step : nat) (l : list A) : list A :=
  stride_from (length l) step l.

(** [plot_data = cmb_data[::max(1, len(cmb_data)//10000)]]. *)
Definition plot_data {A} (cmb_data : list A) : list A :=
  every_nth (Z.to_nat (Z.max 1 (Z.of_nat (length cmb_data) / 10000))) cmb_data.

Lemma stride_from_bounds {A} (step : nat) :
  1 <= step ->
  forall fuel (l : list A),
    length l <= fuel ->
    length (stride_from fuel step l) * step < length l + step /\
    length l <= length (stride_from fuel step l) * step.
Proof.
  intros Hstep. induction fuel as [|fuel IH]; intros l Hl.
  - destruct l; simpl in *; lia.
  - destruct l as [|x rest]; [simpl; lia|].
    cbn [stride_from length].
    assert (Hrest : length (skipn (step - 1) rest) <= fuel)
      by (rewrite length_skipn; simpl in Hl; lia).
    destruct (IH _ Hrest) as [Hup Hlow].
    rewrite length_skipn in Hup, Hlow.
    set (r := length (stride_from fuel step (skipn (step - 1) rest))) in *.
    assert (Hzero : r * step < step -> r = 0) by nia.
    rewrite Nat.mul_succ_l.
    destruct (Nat.le_gt_cases (step - 1) (length rest)) as [Hfull|Hshort].
    + lia.
    + assert (r = 0) by (apply Hzero; lia). subst r. lia.
Qed.

Lemma stride_from_one {A} (fuel : nat) (l : list A) :
  length l <= fuel -> stride_from fuel 1 l = l.
Proof.
  revert l. induction fuel as [|fuel IH]; intros l Hl.
  - destruct l; [reflexivity | simpl in Hl; lia].
  - destruct l as [|x rest]; [reflexivity|].
    cbn [stride_from]. change (1 - 1) with 0. cbn [skipn]. f_equal.
    apply IH. simpl in Hl. lia.
Qed.

(** X13.  The overview plot draws at most 19999 points: an array of up to
    19999 samples is plotted whole, a longer one is thinned to between
    10000 and 19999 points, always starting with its first sample. *)
Theorem plot_data_size {A} (cmb_data : list A) :
  (Z.of_nat (length (plot_data cmb_data)) <= 19999)%Z /\
  ((Z.of_nat (length cmb_data) <= 19999)%Z -> plot_data cmb_data = cmb_data) /\
  ((10000 <= Z.of_nat (length cmb_data))%Z ->
   (10000 <= Z.of_nat (length (plot_data cmb_data)))%Z) /\
  hd_error (plot_data cmb_data) = hd_error cmb_data.
Proof.
  unfold plot_data, every_nth.
  set (n := length cmb_data).
  set (k := (Z.of_nat n / 10000)%Z).
  pose proof (Z.div_mod (Z.of_nat n) 10000 ltac:(lia)) as Hdiv.
  pose proof (Z.mod_pos_bound (Z.of_nat n) 10000 ltac:(lia)) as Hmod.
  fold k in Hdiv.
  assert (Hwhole : (Z.of_nat n <= 19999)%Z ->
                   stride_from n (Z.to_nat (Z.max 1 k)) cmb_data = cmb_data).
  { intros Hn. replace (Z.to_nat (Z.max 1 k)) with 1 by lia.
    apply stride_from_one. unfold n. lia. }
  destruct (@stride_from_bounds A (Z.to_nat (Z.max 1 k)) ltac:(lia) n cmb_data
              ltac:(unfold n; lia)) as [Hup Hlow].
  fold n in Hup, Hlow.
  set (r := length (stride_from n (Z.to_nat (Z.max 1 k)) cmb_data)) in *.
  split; [|split; [exact Hwhole|split]].
  - destruct (Z.le_gt_cases (Z.of_nat n) 19999) as [Hs|Hbig].
    + unfold r. rewrite (Hwhole Hs). exact Hs.
    + replace (Z.to_nat (Z.max 1 k)) with (Z.to_nat k) in Hup by lia. nia.
  - intros Hn. replace (Z.to_nat (Z.max 1 k)) with (Z.to_nat k) in Hlow by lia. nia.
  - unfold n. destruct cmb_data; reflexivity.
Qed.

End Presentation.

(* ===================================================================== *)
(** ** Further properties of the reader *)
(* ===================================================================== *)

Module ReaderMore.
Import Fits FitsFacts.

(** *** The header loop *)

(** As long as no record read so far starts with [END], the loop is still
    running. *)
Lemma read_header_no_end_yet (file_content : bytes) (fuel : nat) :
  (forall j, j < fuel -> startswith (record_at file_content j) "END" = false) ->
  read_header fuel {| content := file_content; pos := 0 |} [] = None.
Proof.
  intros Hno.
  assert (Hrun : forall n j header_cards,
            j + n <= fuel ->
            80 * j <= length file_content ->
            read_header n {| content := file_content; pos := 80 * j |} header_cards
            = None).
  { induction n as [|n IHn]; intros j header_cards Hjn Hpos; [reflexivity|].
    cbn [read_header f_read content pos]. fold (record_at file_content j).
    rewrite (Hno j) by lia.
    destruct (Nat.le_gt_cases 80 (length file_content - 80 * j)) as [Hfull|Hshort].
    - replace (80 * j + length (firstn 80 (skipn (80 * j) file_content)))
        with (80 * S j)
        by (rewrite length_firstn, length_skipn; lia).
      apply IHn; lia.
    - apply (@read_header_stuck_from file_content (length file_content));
        [|left; rewrite length_firstn, length_skipn; lia].
      intros i Hi. unfold record_at. rewrite read_past_end; [reflexivity|exact Hi]. }
  change 0 with (80 * 0) at 1. apply Hrun; lia.
Qed.

(** When the reader has left the loop, the first [END] record lies within
    the reads it was allowed. *)
Lemma outcome_first_end (file_content : bytes) (fuel : nat) :
  read_fits_simple fuel file_content <> Reading ->
  exists k, k < fuel /\ first_end_at file_content k.
Proof.
  intros Hout.
  destruct (existsb (fun j => startswith (record_at file_content j) "END")
                    (seq 0 fuel)) eqn:E.
  - apply existsb_exists in E. destruct E as (j & Hj & Hend).
    apply in_seq in Hj.
    destruct (first_end_exists _ _ Hend) as (k0 & Hle & Hfirst).
    exists k0. split; [lia | exact Hfirst].
  - exfalso. apply Hout. unfold read_fits_simple.
    rewrite read_header_no_end_yet; [reflexivity|].
    intros j Hj.
    destruct (startswith (record_at file_content j) "END") eqn:Ej; [|reflexivity].
    assert (Hex : existsb (fun j => startswith (record_at file_content j) "END")
                          (seq 0 fuel) = true).
    { apply existsb_exists. exists j. split; [apply in_seq; lia | exact Ej]. }
    congruence.
Qed.

(** X14.  When record [k] is the first that starts with [END], the header
    loop makes exactly [k + 1] reads: allowed [k] reads or fewer the reader
    is still in the loop, and allowed more its outcome is the one it
    reaches after [k + 1] reads, whatever the allowance. *)
Theorem header_loop_reads (file_content : bytes) (k : nat) :
  first_end_at file_content k ->
  (forall fuel, fuel <= k -> read_fits_simple fuel file_content = Reading) /\
  (forall fuel, k < fuel ->
     read_fits_simple fuel file_content = read_fits_simple (S k) file_content /\
     read_fits_simple fuel file_content <> Reading).
Proof.
  intros Hk. split.
  - intros fuel Hfuel. unfold read_fits_simple.
    rewrite read_header_no_end_yet; [reflexivity|].
    intros j Hj. apply (proj2 Hk). lia.
  - intros fuel Hfuel.
    rewrite (read_fits_simple_eq Hk Hfuel).
    rewrite (@read_fits_simple_eq file_content k (S k) Hk ltac:(lia)).
    split; [reflexivity|].
    destruct (scan_cards _ _) as [h|]; [|discriminate].
    destruct (frombuffer _ _) as [data|]; [|discriminate].
    destruct (trim_to_naxis1 _ _); discriminate.
Qed.

Lemma header_loop_reads_witness :
  read_fits_simple 4 odd_payload_file = Reading /\
  read_fits_simple 9 odd_payload_file = read_fits_simple 5 odd_payload_file.
Proof.
  destruct (@header_loop_reads odd_payload_file 4 odd_payload_first_end) as [H1 H2].
  split; [apply H1; lia | apply H2; lia].
Defined.

(** *** The returned array *)

Lemma nth_take_items (count width : nat) (buf : bytes) (i : nat) :
  i < count ->
  nth i (take_items count width buf) [] = firstn width (skipn (i * width) buf).
Proof.
  revert buf i. induction count as [|count IH]; intros buf i Hi; [lia|].
  destruct i as [|i]; [reflexivity|].
  cbn [take_items nth]. rewrite IH by lia.
  rewrite skipn_skipn. f_equal. f_equal. lia.
Qed.

Lemma be_to_Z_from (item : bytes) (acc : Z) :
  (0 <= acc)%Z ->
  (acc * 256 ^ Z.of_nat (length item)
   <= fold_left (fun a b => a * 256 + Z.of_N (Byte.to_N b)) item acc
   < (acc + 1) * 256 ^ Z.of_nat (length item))%Z.
Proof.
  revert acc. induction item as [|b item IH]; intros acc Hacc.
  - simpl. lia.
  - cbn [fold_left length]. rewrite Nat2Z.inj_succ, Z.pow_succ_r by lia.
    pose proof (Byte.to_N_bounded b) as Hb.
    assert (Hb' : (0 <= Z.of_N (Byte.to_N b) <= 255)%Z) by lia.
    specialize (IH (acc * 256 + Z.of_N (Byte.to_N b))%Z ltac:(lia)).
    assert (Hp : (0 < 256 ^ Z.of_nat (length item))%Z) by (apply Z.pow_pos_nonneg; lia).
    nia.
Qed.

Lemma be_to_Z_range (item : bytes) :
  (0 <= be_to_Z item < 256 ^ Z.of_nat (length item))%Z.
Proof.
  pose proof (@be_to_Z_from item 0 ltac:(lia)) as H. unfold be_to_Z. lia.
Qed.

Lemma trim_is_prefix {A} (n1 : option Z) (data : list A) :
  trim_to_naxis1 n1 data = firstn (elements_kept n1 (length data)) data.
Proof.
  unfold trim_to_naxis1, elements_kept, slice_to.
  destruct n1 as [n|]; [|now rewrite firstn_all].
  destruct (n =? 0)%Z; [now rewrite firstn_all|].
  destruct (0 <=? n)%Z; [|reflexivity].
  destruct (Nat.le_gt_cases (Z.to_nat n) (length data)) as [H|H].
  - now rewrite Nat.min_l.
  - rewrite Nat.min_r by lia. rewrite firstn_all. apply firstn_all2. lia.
Qed.

(** X15.  Whenever the reader returns an array, the element type is the one
    the [BITPIX] value selects, the bytes after the header block are a
    whole number [c] of elements, and the array is [data[:NAXIS1]] of them:
    its length is [elements_kept], that is [c] when [NAXIS1] is absent or 0,
    [min(NAXIS1, c)] when it is positive and [c - |NAXIS1|] when it is
    negative, and at least one.  Element [i] is the big-endian reading of
    the payload bytes [i*w .. (i+1)*w - 1], a value below [256^w], for the
    element width [w]. *)
Theorem returned_array_is_payload (fuel : nat) (file_content : bytes)
    (d : dtype) (data : list Z) :
  read_fits_simple fuel file_content = ReturnData d data ->
  exists k h,
    k < fuel /\ first_end_at file_content k /\
    scan_cards (header_cards_of file_content k) no_fields = Some h /\
    d = dtype_of_bitpix (bitpix h) /\
    length (payload_of file_content k) mod itemsize d = 0 /\
    length data
    = elements_kept (naxis1 h) (length (payload_of file_content k) / itemsize d) /\
    1 <= length data /\
    forall i, i < length data ->
      nth i data 0%Z
      = be_to_Z (firstn (itemsize d) (skipn (i * itemsize d) (payload_of file_content k))) /\
      (0 <= nth i data 0 < 256 ^ Z.of_nat (itemsize d))%Z.
Proof.
  intros Hret.
  destruct (@outcome_first_end file_content fuel ltac:(rewrite Hret; discriminate))
    as (k & Hk & Hfirst).
  rewrite (read_fits_simple_eq Hfirst Hk) in Hret.
  destruct (scan_cards _ _) as [h|] eqn:Hscan; [|discriminate].
  destruct (frombuffer _ _) as [raw|] eqn:Hfb; [|discriminate].
  destruct (trim_to_naxis1 (naxis1 h) raw) as [|x r] eqn:Htrim; [discriminate|].
  assert (Hd : d = dtype_of_bitpix (bitpix h)) by congruence.
  assert (Hdata : data = trim_to_naxis1 (naxis1 h) raw) by congruence.
  clear Hret. subst d.
  set (w := itemsize (dtype_of_bitpix (bitpix h))) in *.
  set (payload := payload_of file_content k) in *.
  pose proof (frombuffer_Some _ _ Hfb) as [Hmod Hlen]. fold w in Hmod, Hlen.
  pose proof (itemsize_pos (dtype_of_bitpix (bitpix h))) as Hw. fold w in Hw.
  assert (Hraw : raw = map be_to_Z (take_items (length payload / w) w payload)).
  { unfold frombuffer in Hfb. fold w in Hfb. rewrite Hmod in Hfb.
    cbn [Nat.eqb] in Hfb. congruence. }
  assert (Hcount : length data = elements_kept (naxis1 h) (length payload / w)).
  { rewrite Hdata, length_trim_to_naxis1, Hlen. reflexivity. }
  assert (Hle : length data <= length payload / w).
  { rewrite Hdata, trim_is_prefix, length_firstn, Hlen. lia. }
  exists k, h. split; [exact Hk|]. split; [exact Hfirst|].
  split; [exact Hscan|]. split; [reflexivity|]. split; [exact Hmod|].
  split; [exact Hcount|].
  split; [rewrite Hdata, Htrim; simpl; lia|].
  intros i Hi.
  assert (Hnth : nth i data 0%Z = be_to_Z (firstn w (skipn (i * w) payload))).
  { rewrite Hdata, trim_is_prefix, nth_firstn.
    replace (i <? elements_kept (naxis1 h) (length raw)) with true
      by (symmetry; apply Nat.ltb_lt; rewrite Hlen, <- Hcount; exact Hi).
    rewrite Hraw. change 0%Z with (be_to_Z []). rewrite map_nth.
    rewrite nth_take_items by lia. reflexivity. }
  split; [exact Hnth|]. rewrite Hnth.
  assert (Hfull : length (firstn w (skipn (i * w) payload)) = w).
  { rewrite length_firstn, length_skipn.
    pose proof (Nat.div_mod_eq (length payload) w). nia. }
  pose proof (be_to_Z_range (firstn w (skipn (i * w) payload))) as Hr.
  rewrite Hfull in Hr. exact Hr.
Qed.

(** Three 32-bit integers after a one-block header. *)
Definition three_ints_file : bytes :=
  concat (three_ints_body ++ [card "END"]) ++ blanks 2480
  ++ flat_map (be_bytes 4) [1; 256; 4294967295]%Z.

Lemma returned_array_is_payload_witness :
  exists k h,
    first_end_at three_ints_file k /\
    scan_cards (header_cards_of three_ints_file k) no_fields = Some h /\
    be_i4 = dtype_of_bitpix (bitpix h) /\
    3 = elements_kept (naxis1 h) (length (payload_of three_ints_file k) / 4).
Proof.
  destruct (@returned_array_is_payload 5 three_ints_file be_i4
              [1; 256; 4294967295]%Z ltac:(vm_compute; reflexivity))
    as (k & h & _ & H1 & H2 & H3 & _ & H5 & _).
  exists k, h. split; [exact H1|]. split; [exact H2|]. split; [exact H3 | exact H5].
Defined.

(** *** Padding *)

Lemma record_in_header (header rest : bytes) (k j : nat) :
  length header = 80 * S k -> j <= k ->
  record_at (header ++ rest) j = record_at header j.
Proof.
  intros Hlen Hj. unfold record_at. f_equal.
  rewrite skipn_app.
  replace (80 * j - length header) with 0 by lia. cbn [skipn].
  rewrite firstn_app, length_skipn.
  replace (80 - (length header - 80 * j)) with 0 by lia.
  cbn [firstn]. apply app_nil_r.
Qed.

Lemma first_end_in_header (header rest rest' : bytes) (k : nat) :
  length header = 80 * S k ->
  first_end_at (header ++ rest) k -> first_end_at (header ++ rest') k.
Proof.
  intros Hlen [Hend Hbefore]. split.
  - rewrite (@record_in_header header rest' k k Hlen (le_n k)).
    rewrite <- (@record_in_header header rest k k Hlen (le_n k)). exact Hend.
  - intros j Hj.
    rewrite (@record_in_header header rest' k j Hlen ltac:(lia)).
    rewrite <- (@record_in_header header rest k j Hlen ltac:(lia)).
    apply Hbefore. exact Hj.
Qed.

(** X16.  The bytes between the [END] record and the start of the payload
    are never looked at: replacing the padding by any bytes of the same
    length leaves the outcome of the reader unchanged. *)
Theorem padding_is_ignored (header padding padding' rest : bytes) (k fuel : nat) :
  length header = 80 * S k ->
  first_end_at (header ++ padding ++ rest) k ->
  length (header ++ padding) = (S k * 80 + 2879) / 2880 * 2880 ->
  length padding' = length padding ->
  read_fits_simple fuel (header ++ padding' ++ rest)
  = read_fits_simple fuel (header ++ padding ++ rest).
Proof.
  intros Hlen Hfirst Hpad Hsame.
  pose proof (@first_end_in_header header (padding ++ rest) (padding' ++ rest) k
                Hlen Hfirst) as Hfirst'.
  destruct (Nat.le_gt_cases fuel k) as [Hshort|Hfuel].
  - unfold read_fits_simple.
    rewrite !read_header_no_end_yet; [reflexivity| |].
    + intros j Hj. apply (proj2 Hfirst). lia.
    + intros j Hj. apply (proj2 Hfirst'). lia.
  - rewrite (read_fits_simple_eq Hfirst Hfuel), (read_fits_simple_eq Hfirst' Hfuel).
    assert (Hcards : header_cards_of (header ++ padding' ++ rest) k
                     = header_cards_of (header ++ padding ++ rest) k).
    { unfold header_cards_of. apply map_ext_in. intros j Hj. apply in_seq in Hj.
      rewrite (@record_in_header header (padding' ++ rest) k j Hlen ltac:(lia)).
      rewrite (@record_in_header header (padding ++ rest) k j Hlen ltac:(lia)).
      reflexivity. }
    rewrite Hcards.
    rewrite (@payload_after_header header padding rest k Hpad).
    rewrite (@payload_after_header header padding' rest k
               ltac:(rewrite length_app, Hsame, <- length_app; exact Hpad)).
    reflexivity.
Qed.

Lemma padding_is_ignored_witness :
  read_fits_simple 5
    (concat (three_ints_body ++ [card "END"]) ++ repeat "000"%byte 2480
     ++ flat_map (be_bytes 4) [1; 256; 4294967295]%Z)
  = read_fits_simple 5 three_ints_file.
Proof.
  apply (@padding_is_ignored (concat (three_ints_body ++ [card "END"]))
           (blanks 2480) (repeat "000"%byte 2480)
           (flat_map (be_bytes 4) [1; 256; 4294967295]%Z) 4 5).
  - vm_compute. reflexivity.
  - first_end_by_cases.
  - vm_compute. reflexivity.
  - vm_compute. reflexivity.
Defined.

(** *** Header cards *)

Lemma scan_cards_app (cards1 cards2 : list string) (h : header_fields) :
  scan_cards (cards1 ++ cards2) h
  = match scan_cards cards1 h with
    | Some h' => scan_cards cards2 h'
    | None => None
    end.
Proof.
  revert h. induction cards1 as [|c cards1 IH]; intros h; [reflexivity|].
  cbn [app scan_cards].
  destruct (startswith c "NAXIS   =");
    [|destruct (startswith c "NAXIS1  =");
      [|destruct (startswith c "BITPIX  =")]];
    try (destruct (card_value c); [apply IH | reflexivity]).
  apply IH.
Qed.

Lemma naxis1_is_not_naxis (c : string) :
  startswith c "NAXIS1  =" = true -> startswith c "NAXIS   =" = false.
Proof.
  unfold startswith. intros H.
  do 6 (destruct c as [|? c]; cbn [String.prefix] in H; [discriminate H|];
        match type of H with
        | (if ascii_dec ?a ?b then _ else _) = true =>
            destruct (ascii_dec a b) as [<-|]; [|discriminate H]
        end).
  reflexivity.
Qed.

Lemma scan_cards_keeps_naxis1 (rest : list string) (h1 h : header_fields) :
  Forall (fun r => startswith r "NAXIS1  =" = false) rest ->
  scan_cards rest h1 = Some h -> naxis1 h = naxis1 h1.
Proof.
  intros Hrest. revert h1.
  induction Hrest as [|r rest Hr _ IH]; intros h1; cbn [scan_cards].
  - intros [= <-]. reflexivity.
  - rewrite Hr.
    destruct (startswith r "NAXIS   =").
    + destruct (card_value r); [|discriminate].
      intros H. apply IH in H. exact H.
    + destruct (startswith r "BITPIX  =").
      * destruct (card_value r); [|discriminate].
        intros H. apply IH in H. exact H.
      * apply IH.
Qed.

Lemma first_end_unique (file_content : bytes) (k k' : nat) :
  first_end_at file_content k -> first_end_at file_content k' -> k = k'.
Proof.
  intros [He Hb] [He' Hb'].
  destruct (Nat.lt_trichotomy k k') as [H|[H|H]]; [|exact H|].
  - rewrite (Hb' k H) in He. discriminate.
  - rewrite (Hb k' H) in He'. discriminate.
Qed.

(** X17.  When the header holds several [NAXIS1] cards, the last one before
    [END] decides: if the cards up to the [END] record are
    [cards ++ c :: rest], where [c] is a [NAXIS1] card with value [v] and no
    card of [rest] is one, then a returned array has the length that
    [data[:v]] leaves of the payload's elements, whatever the earlier
    [NAXIS1] cards say. *)
Theorem last_naxis1_card_wins (fuel : nat) (file_content : bytes) (k : nat)
    (cards rest : list string) (c : string) (v : Z) (d : dtype) (data : list Z) :
  first_end_at file_content k ->
  header_cards_of file_content k = cards ++ c :: rest ->
  startswith c "NAXIS1  =" = true ->
  card_value c = Some v ->
  Forall (fun r => startswith r "NAXIS1  =" = false) rest ->
  read_fits_simple fuel file_content = ReturnData d data ->
  length data
  = elements_kept (Some v) (length (payload_of file_content k) / itemsize d).
Proof.
  intros Hfirst Hcards Hkey Hval Hrest Hret.
  destruct (@outcome_first_end file_content fuel ltac:(rewrite Hret; discriminate))
    as (k' & Hk & Hfirst').
  pose proof (first_end_unique Hfirst Hfirst') as <-.
  rewrite (read_fits_simple_eq Hfirst Hk) in Hret.
  rewrite Hcards in Hret.
  destruct (scan_cards (cards ++ c :: rest) no_fields) as [h|] eqn:Hscan;
    [|discriminate].
  assert (Hn1 : naxis1 h = Some v).
  { rewrite scan_cards_app in Hscan.
    destruct (scan_cards cards no_fields) as [h1|]; [|discriminate].
    cbn [scan_cards] in Hscan.
    rewrite (naxis1_is_not_naxis c Hkey), Hkey, Hval in Hscan.
    exact (@scan_cards_keeps_naxis1 rest _ h Hrest Hscan). }
  destruct (frombuffer _ _) as [raw|] eqn:Hfb; [|discriminate].
  destruct (trim_to_naxis1 (naxis1 h) raw) as [|x r] eqn:Htrim; [discriminate|].
  assert (Hd : d = dtype_of_bitpix (bitpix h)) by congruence.
  assert (Hdata : data = trim_to_naxis1 (naxis1 h) raw) by congruence.
  pose proof (frombuffer_Some _ _ Hfb) as [_ Hlen].
  rewrite Hdata, length_trim_to_naxis1, Hlen, Hn1, Hd. reflexivity.
Qed.

(** Five 32-bit integers after a header that says [NAXIS1 = 7] and then
    [NAXIS1 = 3]. *)
Definition two_naxis1_body : list bytes :=
  [ card "SIMPLE  =                    T";
    card "NAXIS1  =                    7";
    card "BITPIX  =                   32";
    card "NAXIS1  =                    3 / again";
    card "NAXIS   =                    1" ].

Definition two_naxis1_file : bytes :=
  concat (two_naxis1_body ++ [card "END"]) ++ blanks 2400
  ++ flat_map (be_bytes 4) [10; 20; 30; 40; 50]%Z.

Lemma last_naxis1_card_wins_witness :
  length [10; 20; 30]%Z
  = elements_kept (Some 3%Z) (length (payload_of two_naxis1_file 5) / itemsize be_i4).
Proof.
  apply (@last_naxis1_card_wins 7 two_naxis1_file 5
           (map decode_ascii_ignore
              [card "SIMPLE  =                    T";
               card "NAXIS1  =                    7";
               card "BITPIX  =                   32"])
           (map decode_ascii_ignore
              [card "NAXIS   =                    1"; card "END"])
           (decode_ascii_ignore (card "NAXIS1  =                    3 / again"))
           3%Z be_i4 [10; 20; 30]%Z).
  - apply (@concat_first_end two_naxis1_body (card "END")).
    + repeat constructor.
    + repeat constructor.
    + reflexivity.
  - vm_compute. reflexivity.
  - vm_compute. reflexivity.
  - vm_compute. reflexivity.
  - repeat constructor.
  - vm_compute. reflexivity.
Defined.

(** The reader on that file: three elements, not five and not seven. *)
Example two_naxis1_read :
  read_fits_simple 7 two_naxis1_file = ReturnData be_i4 [10; 20; 30]%Z.
Proof. vm_compute. reflexivity. Qed.

(** *** The value of a card *)

(** The character occurs in the string. *)
Fixpoint has_char (c : ascii) (s : string) : bool :=
  match s with
  | EmptyString => false
  | String x s' => Ascii.eqb x c || has_char c s'
  end.

Lemma split_cons (sep : ascii) (s : string) :
  exists first others, split sep s = first :: others.
Proof.
  induction s as [|x s (f & o & IH)]; simpl; [eauto|].
  destruct (Ascii.eqb x sep); [eauto|]. rewrite IH. eauto.
Qed.

(** Up to the first separator: the first piece of a split. *)
Lemma hd_split_app (sep : ascii) (a b : string) :
  has_char sep a = false ->
  hd EmptyString (split sep (a ++ b))
  = (a ++ hd EmptyString (split sep b))%string.
Proof.
  induction a as [|x a IH]; intros Ha; [reflexivity|].
  simpl in Ha. apply orb_false_iff in Ha. destruct Ha as [Hx Ha].
  cbn [String.append split]. rewrite Hx.
  destruct (split_cons sep (a ++ b)) as (f & o & Hs).
  specialize (IH Ha). rewrite Hs in IH |- *. cbn [hd] in *. now rewrite IH.
Qed.

Lemma hd_split_sep (sep : ascii) (a b : string) :
  has_char sep a = false ->
  hd EmptyString (split sep (a ++ String sep b)) = a.
Proof.
  intros Ha. rewrite hd_split_app by exact Ha.
  cbn [split]. rewrite Ascii.eqb_refl. cbn [hd].
  induction a as [|x a IH]; [reflexivity|].
  simpl in Ha. apply orb_false_iff in Ha. cbn [String.append].
  f_equal. apply IH. tauto.
Qed.

Lemma hd_split_none (sep : ascii) (a : string) :
  has_char sep a = false -> hd EmptyString (split sep a) = a.
Proof.
  induction a as [|x a IH]; intros Ha; [reflexivity|].
  simpl in Ha. apply orb_false_iff in Ha. destruct Ha as [Hx Ha].
  cbn [split]. rewrite Hx.
  destruct (split_cons sep a) as (f & o & Hs).
  specialize (IH Ha). rewrite Hs in IH |- *. cbn [hd] in *. now rewrite IH.
Qed.

Lemma second_split_piece (sep : ascii) (a b : string) :
  has_char sep a = false ->
  nth 1 (split sep (a ++ String sep b)) EmptyString
  = hd EmptyString (split sep b).
Proof.
  induction a as [|x a IH]; intros Ha.
  - cbn [String.append split]. rewrite Ascii.eqb_refl.
    destruct (split_cons sep b) as (f & o & Hs). rewrite Hs. reflexivity.
  - simpl in Ha. apply orb_false_iff in Ha. destruct Ha as [Hx Ha].
    cbn [String.append split]. rewrite Hx.
    destruct (split_cons sep (a ++ String sep b)) as (f & o & Hs).
    specialize (IH Ha). rewrite Hs in IH |- *. exact IH.
Qed.

(** X18.  The value of a card is the text after its first [=], up to the
    next [=] or [/] or to the end of the card, stripped and read by [int]:
    whatever follows that second delimiter is ignored.  So the comment
    after a [/] does not count, and neither does anything after a second
    [=]. *)
Theorem card_value_field (key value rest : string) (delimiter : ascii) :
  has_char "=" key = false ->
  has_char "=" value = false ->
  has_char "/" value = false ->
  delimiter = "="%char \/ delimiter = "/"%char ->
  card_value (key ++ String "=" (value ++ String delimiter rest))
  = py_int (strip value) /\
  card_value (key ++ String "=" value) = py_int (strip value).
Proof.
  intros Hkey Hv1 Hv2 Hd. unfold card_value. split.
  - rewrite second_split_piece by exact Hkey.
    destruct Hd as [->| ->].
    + rewrite hd_split_sep by exact Hv1.
      rewrite (@hd_split_none "/" value Hv2). reflexivity.
    + rewrite hd_split_app by exact Hv1.
      cbn [split]. change (Ascii.eqb "/" "=") with false. cbv iota.
      destruct (split_cons "=" rest) as (f & o & Hs). rewrite Hs. cbn [hd].
      rewrite hd_split_sep by exact Hv2. reflexivity.
  - rewrite second_split_piece by exact Hkey.
    rewrite (@hd_split_none "=" value Hv1).
    rewrite (@hd_split_none "/" value Hv2). reflexivity.
Qed.

Lemma card_value_field_witness :
  card_value "NAXIS1  = 1=2 / c" = py_int (strip " 1") /\
  card_value "NAXIS1  = 1" = py_int (strip " 1").
Proof.
  apply (@card_value_field "NAXIS1  " " 1" "2 / c" "="%char);
    [reflexivity | reflexivity | reflexivity | left; reflexivity].
Defined.

(** A second [=] ends the value as a [/] does; a card without [=] has no
    value. *)
Example card_values :
  card_value "NAXIS1  = 1=2 / c" = Some 1%Z /\
  card_value "NAXIS1  =                 4096 / length = 4096 / first axis"
  = Some 4096%Z /\
  card_value "NAXIS1  = 1/2" = Some 1%Z /\
  card_value "NAXIS1    4096" = None.
Proof. repeat split; vm_compute; reflexivity. Qed.

End ReaderMore.
